(** * sheet_manager.data_model.piece : the Piece entity model

    A shallow embedding of [src/sheet_manager/data_model/piece.py].

    The Python class [Piece] keeps an index of one piece of music that
    lives in a directory: its encodings, its performances and its scores.
    Every method reads or writes the file system and the attributes of
    [self], and may raise.  The embedding therefore has three layers:

    - the environment: POSIX path strings ([os.path]), a directory tree
      ([os], [shutil]), file objects and the logging module;
    - a state-and-exception monad [M] whose state holds [self], the disk,
      the log and the table of open files;
    - the methods of [Piece], one definition per method, in the order and
      with the names of the source. *)

From Stdlib Require Import String Ascii List Bool Arith ZArith Lia.
Import ListNotations.
Open Scope string_scope.

(** ** Strings and insertion-ordered dictionaries *)

Fixpoint no_char (c : ascii) (s : string) : bool :=
  match s with
  | EmptyString => true
  | String d r => negb (Ascii.eqb d c) && no_char c r
  end.

Fixpoint drop (n : nat) (s : string) : string :=
  match n, s with
  | O, _ => s
  | S m, EmptyString => EmptyString
  | S m, String _ r => drop m r
  end.

Fixpoint take (n : nat) (s : string) : string :=
  match n, s with
  | O, _ => EmptyString
  | S m, EmptyString => EmptyString
  | S m, String c r => String c (take m r)
  end.

(** [s.rfind(c)]: the highest index of [c] in [s], [-1] when absent. *)
Fixpoint rfind (c : ascii) (s : string) : Z :=
  match s with
  | EmptyString => (-1)%Z
  | String d r =>
      let i := rfind c r in
      if (0 <=? i)%Z then (i + 1)%Z
      else if Ascii.eqb d c then 0%Z else (-1)%Z
  end.

Module Dict.
(** A Python [dict] with string keys.  Iteration, [keys()] and
    [values()] follow insertion order; storing under a key that is
    present replaces the value in place.  Directories of the disk are
    kept the same way, their listing order being the order of the
    entries. *)
Definition t (V : Type) : Type := list (string * V).

Fixpoint get {V} (k : string) (d : t V) : option V :=
  match d with
  | [] => None
  | (k', v) :: r => if String.eqb k' k then Some v else get k r
  end.

Definition contains {V} (k : string) (d : t V) : bool :=
  match get k d with Some _ => true | None => false end.

Fixpoint set {V} (k : string) (v : V) (d : t V) : t V :=
  match d with
  | [] => [(k, v)]
  | (k', v') :: r =>
      if String.eqb k' k then (k, v) :: r else (k', v') :: set k v r
  end.

Definition del {V} (k : string) (d : t V) : t V :=
  filter (fun e => negb (String.eqb (fst e) k)) d.

Definition keys {V} (d : t V) : list string := map fst d.
Definition values {V} (d : t V) : list V := map snd d.
End Dict.

(** [x in l] for a list of strings. *)
Definition in_list (x : string) (l : list string) : bool :=
  existsb (String.eqb x) l.

(** ** os.path on POSIX path strings *)

Definition sep : ascii := "/"%char.
Definition extsep : ascii := "."%char.

Definition startswith_sep (p : string) : bool :=
  match p with
  | String c _ => Ascii.eqb c sep
  | EmptyString => false
  end.

Fixpoint endswith_sep (p : string) : bool :=
  match p with
  | EmptyString => false
  | String c EmptyString => Ascii.eqb c sep
  | String _ r => endswith_sep r
  end.

(** [os.path.join(a, b)] (posixpath, two arguments). *)
Definition join (a b : string) : string :=
  if startswith_sep b then b
  else if String.eqb a "" || endswith_sep a then a ++ b
  else a ++ "/" ++ b.

(** The loop of [genericpath._splitext] that skips the leading dots of
    the file name: it answers [true] as soon as a character that is not a
    dot stands at an index in [filenameIndex, dotIndex). *)
Fixpoint non_dot_before (p : string) (filenameIndex : nat) (count : nat) : bool :=
  match count with
  | O => false
  | S k =>
      match String.get filenameIndex p with
      | Some c =>
          if negb (Ascii.eqb c extsep) then true
          else non_dot_before p (S filenameIndex) k
      | None => true
      end
  end.

(** [os.path.splitext(p)]. *)
Definition splitext (p : string) : string * string :=
  let sepIndex := rfind sep p in
  let dotIndex := rfind extsep p in
  if (dotIndex >? sepIndex)%Z then
    let filenameIndex := (sepIndex + 1)%Z in
    if non_dot_before p (Z.to_nat filenameIndex)
         (Z.to_nat (dotIndex - filenameIndex))
    then (take (Z.to_nat dotIndex) p, drop (Z.to_nat dotIndex) p)
    else (p, "")
  else (p, "").

(** [p.split('/')]. *)
Fixpoint split_sep (p : string) : list string :=
  match p with
  | EmptyString => [""]
  | String c r =>
      if Ascii.eqb c sep then "" :: split_sep r
      else match split_sep r with
           | h :: t => String c h :: t
           | [] => [String c ""]
           end
  end.

(** Path resolution walks the components from the root of the tree; the
    working directory of the process is taken to be the root, so relative
    and absolute paths resolve alike.  Empty components and [.] are
    skipped and [..] steps to the parent. *)
Definition resolve_step (stack : list string) (c : string) : list string :=
  if String.eqb c "" || String.eqb c "." then stack
  else if String.eqb c ".." then removelast stack
  else stack ++ [c].

Definition resolve (p : string) : list string :=
  fold_left resolve_step (split_sep p) [].

(** A plain name is one path component that names an entry. *)
Definition plain (n : string) : bool :=
  negb (String.eqb n "") && negb (String.eqb n ".")
  && negb (String.eqb n "..") && no_char sep n.

(** ** The disk *)

(** A regular file with its content, or a directory with its entries. *)
#[warnings="-register-all"]
Inductive node : Type :=
| File (data : string)
| Dir (entries : Dict.t node).

Fixpoint lookup (p : list string) (t : node) : option node :=
  match p with
  | [] => Some t
  | c :: q =>
      match t with
      | Dir es =>
          match Dict.get c es with
          | Some t' => lookup q t'
          | None => None
          end
      | File _ => None
      end
  end.

(** [put p v t] stores [v] at [p] when the parent of [p] is a directory
    of [t]; otherwise [t] is returned as it is. *)
Fixpoint put (p : list string) (v : node) (t : node) : node :=
  match p with
  | [] => v
  | c :: q =>
      match t with
      | Dir es =>
          match q with
          | [] => Dir (Dict.set c v es)
          | _ :: _ =>
              match Dict.get c es with
              | Some t' => Dir (Dict.set c (put q v t') es)
              | None => t
              end
          end
      | File _ => t
      end
  end.

(** [remove p t] unlinks the entry at [p] together with all below it. *)
Fixpoint remove (p : list string) (t : node) : node :=
  match p with
  | [] => t
  | c :: q =>
      match t with
      | Dir es =>
          match q with
          | [] => Dir (Dict.del c es)
          | _ :: _ =>
              match Dict.get c es with
              | Some t' => Dir (Dict.set c (remove q t') es)
              | None => t
              end
          end
      | File _ => t
      end
  end.

Definition is_dir (o : option node) : bool :=
  match o with Some (Dir _) => true | _ => false end.

Definition is_file (o : option node) : bool :=
  match o with Some (File _) => true | _ => false end.

(** ** Exceptions, log records and program state *)

(** The text of every message of the module, with the arguments given to
    [str.format]. *)
Inductive message : Type :=
| CollectionRootMissing (root : string)
| PieceMissing (name root : string)
| FormatNotSupported (authority_format : string)
| NoAuthorityEncoding (name root authority_format : string)
    (encodings_values : list string)
| NoSuchPerformance (name root performance_name : string)
    (performances_keys : list string)
| NoMetadataFile (name fname : string)
| RemoveMissingPerformance (name performance_name : string)
| PerformanceOverwritten (name performance_name : string)
| PerformanceExists (name performance_name : string)
| ClosedFile.

Inductive oserror : Type :=
| FileExistsError
| FileNotFoundError
| NotADirectoryError
| IsADirectoryError
| SameFileError
| PermissionError.

Inductive exn : Type :=
| ValueError (m : message)
| SheetManagerDBError (m : message)
| KeyError (key : string)
| OSError (e : oserror) (path : string)
| NotImplementedError.

(** A file object returned by [open]. *)
Record file : Type := { fileno : nat; fname : string }.

(** The value of [self.metadata]: [dict()] or the generator object that
    [yaml.load_all] returns. *)
Inductive metadata_value : Type :=
| MetadataDict (d : Dict.t string)
| MetadataGenerator (stream : file).

Record Piece : Type := {
  name : string;
  folder : string;
  collection_root : string;
  performance_dir : string;
  score_dir : string;
  metadata : metadata_value;
  encodings : Dict.t string;
  authority_format : string;
  authority : string;
  performances : Dict.t string;
  scores : Dict.t string
}.

Record state : Type := {
  self : Piece;
  disk : node;
  log : list message;
  open_files : list nat;
  next_fileno : nat
}.

Inductive result (A : Type) : Type :=
| Ok (a : A)
| Raise (e : exn).
Arguments Ok {A} a.
Arguments Raise {A} e.

Definition M (A : Type) : Type := state -> result A * state.

Definition ret {A} (a : A) : M A := fun s => (Ok a, s).

Definition bind {A B} (c : M A) (k : A -> M B) : M B :=
  fun s =>
    match c s with
    | (Ok a, s') => k a s'
    | (Raise e, s') => (Raise e, s')
    end.

Definition raise {A} (e : exn) : M A := fun s => (Raise e, s).

(** [try: c finally: h] *)
Definition finally {A} (c : M A) (h : M unit) : M A :=
  fun s =>
    match c s with
    | (r, s') =>
        match h s' with
        | (Ok _, s'') => (r, s'')
        | (Raise e, s'') => (Raise e, s'')
        end
    end.

Definition gets {A} (f : state -> A) : M A := fun s => (Ok (f s), s).
Definition modify (f : state -> state) : M unit := fun s => (Ok tt, f s).

Declare Scope py_scope.
Delimit Scope py_scope with py.
Notation "x <- c ;; k" := (bind c (fun x => k))
  (at level 100, c at next level, right associativity) : py_scope.
Notation "c ;; k" := (bind c (fun _ => k))
  (at level 100, right associativity) : py_scope.
Notation "'when' b 'then' c" := (if b then c else ret tt)
  (at level 99, b at level 0, c at level 99) : py_scope.
Open Scope py_scope.

(** Attribute stores.  Every store of the source is a rebinding of an
    attribute of [self] to a new value; the only in-place stores into a
    dict are those of [collect_encodings] into its local dict, before it
    is returned.  No dict object is changed after it has been bound to an
    attribute, so dicts are kept as values. *)
Definition with_self (f : Piece -> Piece) (s : state) : state :=
  {| self := f (self s); disk := disk s; log := log s;
     open_files := open_files s; next_fileno := next_fileno s |}.

Definition with_disk (d : node) (s : state) : state :=
  {| self := self s; disk := d; log := log s;
     open_files := open_files s; next_fileno := next_fileno s |}.

Definition set_metadata (v : metadata_value) (p : Piece) : Piece :=
  {| name := name p; folder := folder p;
     collection_root := collection_root p;
     performance_dir := performance_dir p; score_dir := score_dir p;
     metadata := v; encodings := encodings p;
     authority_format := authority_format p; authority := authority p;
     performances := performances p; scores := scores p |}.

Definition set_encodings (v : Dict.t string) (p : Piece) : Piece :=
  {| name := name p; folder := folder p;
     collection_root := collection_root p;
     performance_dir := performance_dir p; score_dir := score_dir p;
     metadata := metadata p; encodings := v;
     authority_format := authority_format p; authority := authority p;
     performances := performances p; scores := scores p |}.

Definition set_authority_format (v : string) (p : Piece) : Piece :=
  {| name := name p; folder := folder p;
     collection_root := collection_root p;
     performance_dir := performance_dir p; score_dir := score_dir p;
     metadata := metadata p; encodings := encodings p;
     authority_format := v; authority := authority p;
     performances := performances p; scores := scores p |}.

Definition set_authority (v : string) (p : Piece) : Piece :=
  {| name := name p; folder := folder p;
     collection_root := collection_root p;
     performance_dir := performance_dir p; score_dir := score_dir p;
     metadata := metadata p; encodings := encodings p;
     authority_format := authority_format p; authority := v;
     performances := performances p; scores := scores p |}.

Definition set_performances (v : Dict.t string) (p : Piece) : Piece :=
  {| name := name p; folder := folder p;
     collection_root := collection_root p;
     performance_dir := performance_dir p; score_dir := score_dir p;
     metadata := metadata p; encodings := encodings p;
     authority_format := authority_format p; authority := authority p;
     performances := v; scores := scores p |}.

Definition set_scores (v : Dict.t string) (p : Piece) : Piece :=
  {| name := name p; folder := folder p;
     collection_root := collection_root p;
     performance_dir := performance_dir p; score_dir := score_dir p;
     metadata := metadata p; encodings := encodings p;
     authority_format := authority_format p; authority := authority p;
     performances := performances p; scores := v |}.

(** ** os, shutil, open and logging *)

Module os.

Definition isdir (path : string) : M bool :=
  gets (fun s => is_dir (lookup (resolve path) (disk s))).

Definition isfile (path : string) : M bool :=
  gets (fun s => is_file (lookup (resolve path) (disk s))).

Definition listdir (path : string) : M (list string) :=
  fun s =>
    match lookup (resolve path) (disk s) with
    | Some (Dir es) => (Ok (Dict.keys es), s)
    | Some (File _) => (Raise (OSError NotADirectoryError path), s)
    | None => (Raise (OSError FileNotFoundError path), s)
    end.

Definition mkdir (path : string) : M unit :=
  fun s =>
    let p := resolve path in
    match lookup p (disk s) with
    | Some _ => (Raise (OSError FileExistsError path), s)
    | None =>
        match lookup (removelast p) (disk s) with
        | Some (Dir _) => (Ok tt, with_disk (put p (Dir []) (disk s)) s)
        | Some (File _) => (Raise (OSError NotADirectoryError path), s)
        | None => (Raise (OSError FileNotFoundError path), s)
        end
    end.

End os.

Module shutil.

Fixpoint same_path (p q : list string) : bool :=
  match p, q with
  | [], [] => true
  | c :: p', d :: q' => String.eqb c d && same_path p' q'
  | _, _ => false
  end.

(** [shutil.rmtree(path)]: [path] must be a directory; the root of the
    tree cannot be unlinked. *)
Definition rmtree (path : string) : M unit :=
  fun s =>
    let p := resolve path in
    match lookup p (disk s) with
    | Some (Dir _) =>
        match p with
        | [] => (Raise (OSError PermissionError path), s)
        | _ :: _ => (Ok tt, with_disk (remove p (disk s)) s)
        end
    | Some (File _) => (Raise (OSError NotADirectoryError path), s)
    | None => (Raise (OSError FileNotFoundError path), s)
    end.

(** [shutil.copyfile(src, dst)]: the content of the regular file [src]
    is written to [dst], which is created or truncated. *)
Definition copyfile (src dst : string) : M unit :=
  fun s =>
    let p := resolve src in
    let q := resolve dst in
    match lookup p (disk s) with
    | Some (File data) =>
        if same_path p q
        then (Raise (OSError SameFileError dst), s)
        else
          match lookup q (disk s) with
          | Some (Dir _) => (Raise (OSError IsADirectoryError dst), s)
          | Some (File _) => (Ok tt, with_disk (put q (File data) (disk s)) s)
          | None =>
              match lookup (removelast q) (disk s) with
              | Some (Dir _) =>
                  (Ok tt, with_disk (put q (File data) (disk s)) s)
              | Some (File _) => (Raise (OSError NotADirectoryError dst), s)
              | None => (Raise (OSError FileNotFoundError dst), s)
              end
          end
    | Some (Dir _) => (Raise (OSError IsADirectoryError src), s)
    | None => (Raise (OSError FileNotFoundError src), s)
    end.

End shutil.

Module logging.

Definition warn (m : message) : M unit :=
  modify (fun s =>
    {| self := self s; disk := disk s; log := log s ++ [m];
       open_files := open_files s; next_fileno := next_fileno s |}).

Definition warning := warn.

End logging.

Module time.

(** [time.sleep] lets wall-clock time pass and has no other effect; the
    state carries no clock. *)
Definition sleep (seconds : nat) : M unit := ret tt.

End time.

(** [open(path, 'r')], [hdl.close()] and [hdl.read()]. *)
Definition open (path : string) : M file :=
  fun s =>
    match lookup (resolve path) (disk s) with
    | Some (File _) =>
        let hdl := {| fileno := next_fileno s; fname := path |} in
        (Ok hdl,
         {| self := self s; disk := disk s; log := log s;
            open_files := next_fileno s :: open_files s;
            next_fileno := S (next_fileno s) |})
    | Some (Dir _) => (Raise (OSError IsADirectoryError path), s)
    | None => (Raise (OSError FileNotFoundError path), s)
    end.

Definition close (hdl : file) : M unit :=
  modify (fun s =>
    {| self := self s; disk := disk s; log := log s;
       open_files :=
         filter (fun n => negb (Nat.eqb n (fileno hdl))) (open_files s);
       next_fileno := next_fileno s |}).

Definition read (hdl : file) : M string :=
  fun s =>
    if existsb (Nat.eqb (fileno hdl)) (open_files s) then
      match lookup (resolve (fname hdl)) (disk s) with
      | Some (File data) => (Ok data, s)
      | _ => (Ok "", s)
      end
    else (Raise (ValueError ClosedFile), s).

(** [with open(path, 'r') as hdl: body] *)
Definition with_open {A} (path : string) (body : file -> M A) : M A :=
  hdl <- open path ;;
  finally (body hdl) (close hdl).

Module yaml.

(** [yaml.load_all(stream)] is a generator function of PyYAML: the call
    returns a generator object bound to [stream] and reads nothing.  The
    stream is read when the generator is advanced for the first time. *)
Definition load_all (stream : file) : M metadata_value :=
  ret (MetadataGenerator stream).

End yaml.

(** [d[k]] *)
Definition getitem {V} (k : string) (d : Dict.t V) : M V :=
  match Dict.get k d with
  | Some v => ret v
  | None => raise (KeyError k)
  end.


(** [[body(x) for x in l]] *)
Fixpoint list_comprehension {A B} (l : list A) (body : A -> M B)
  : M (list B) :=
  match l with
  | [] => ret []
  | x :: r =>
      y <- body x ;;
      ys <- list_comprehension r body ;;
      ret (y :: ys)
  end.

(** [{k: value(k) for k in l}] *)
Definition dict_comprehension {V} (l : list string) (value : string -> V)
  : Dict.t V :=
  fold_left (fun d k => Dict.set k (value k) d) l [].

(** ** class Piece *)

Definition DEFAULT_META_FNAME : string := "meta.yml".
Definition AVAILABLE_AUTHORITIES : list string := ["mxml"; "ly"; "midi"; "mei"].

Definition attr {A} (f : Piece -> A) : M A := gets (fun s => f (self s)).
Definition store (f : Piece -> Piece) : M unit := modify (with_self f).

Definition _ensure_piece_structure : M unit :=
  pd <- attr performance_dir ;;
  b <- os.isdir pd ;;
  (when (negb b) then os.mkdir pd) ;;
  sd <- attr score_dir ;;
  b <- os.isdir sd ;;
  when (negb b) then os.mkdir sd.

Definition _set_authority (fmt : string) : M unit :=
  (when (negb (in_list fmt AVAILABLE_AUTHORITIES)) then
     raise (ValueError (FormatNotSupported fmt))) ;;
  enc <- attr encodings ;;
  (when (negb (Dict.contains fmt enc)) then
     (nm <- attr name ;;
      root <- attr collection_root ;;
      raise (SheetManagerDBError
               (NoAuthorityEncoding nm root fmt (Dict.values enc))))) ;;
  store (set_authority_format fmt) ;;
  enc <- attr encodings ;;
  path <- getitem fmt enc ;;
  store (set_authority path).

Definition collect_performances : M (Dict.t string) :=
  pd <- attr performance_dir ;;
  names <- os.listdir pd ;;
  let performances := dict_comprehension names (fun p => join pd p) in
  ret performances.

Definition collect_scores : M (Dict.t string) :=
  sd <- attr score_dir ;;
  names <- os.listdir sd ;;
  let scores := dict_comprehension names (fun s => join sd s) in
  ret scores.

Definition collect_encodings : M (Dict.t string) :=
  fld <- attr folder ;;
  nm <- attr name ;;
  let encodings := [] in
  let mxml := join fld (nm ++ ".xml") in
  b <- os.isfile mxml ;;
  let encodings := if b then Dict.set "mxml" mxml encodings else encodings in
  let ly := join fld (nm ++ ".ly") in
  b <- os.isfile ly ;;
  let encodings := if b then Dict.set "ly" ly encodings else encodings in
  let midi := join fld (nm ++ ".mid") in
  b <- os.isfile midi ;;
  let midi := if negb b then midi ++ "i" else midi in
  b <- os.isfile midi ;;
  let encodings := if b then Dict.set "midi" midi encodings else encodings in
  let mei := join fld (nm ++ ".mei") in
  b <- os.isfile mei ;;
  let encodings := if b then Dict.set "mei" mei encodings else encodings in
  ret encodings.

Definition load_metadata : M metadata_value :=
  fld <- attr folder ;;
  let metafile := join fld DEFAULT_META_FNAME in
  b <- os.isfile metafile ;;
  if negb b then
    nm <- attr name ;;
    logging.warn (NoMetadataFile nm DEFAULT_META_FNAME) ;;
    ret (MetadataDict [])
  else
    metadata <- with_open metafile (fun hdl => yaml.load_all hdl) ;;
    ret metadata.

Definition update : M unit :=
  enc <- collect_encodings ;;
  store (set_encodings enc) ;;
  fmt <- attr authority_format ;;
  _set_authority fmt ;;
  _ensure_piece_structure ;;
  perfs <- collect_performances ;;
  store (set_performances perfs) ;;
  scs <- collect_scores ;;
  store (set_scores scs).

(** The object that [__init__] receives has no attribute yet; a record
    needs a value in every field, and no attribute is read before the
    constructor has stored it.  The five path attributes are stored by
    consecutive assignments with nothing in between. *)
Definition set_location (nm fld root pd sd : string) (p : Piece) : Piece :=
  {| name := nm; folder := fld; collection_root := root;
     performance_dir := pd; score_dir := sd;
     metadata := metadata p; encodings := encodings p;
     authority_format := authority_format p; authority := authority p;
     performances := performances p; scores := scores p |}.

Definition __init__ (nm root fmt : string) : M unit :=
  b <- os.isdir root ;;
  (when (negb b) then
     raise (SheetManagerDBError (CollectionRootMissing root))) ;;
  let piece_folder := join root nm in
  b <- os.isdir piece_folder ;;
  (when (negb b) then
     raise (SheetManagerDBError (PieceMissing nm root))) ;;
  (when (negb (in_list fmt AVAILABLE_AUTHORITIES)) then
     raise (ValueError (FormatNotSupported fmt))) ;;
  store (set_location nm piece_folder root
           (join piece_folder "performances") (join piece_folder "scores")) ;;
  _ensure_piece_structure ;;
  md <- load_metadata ;;
  store (set_metadata md) ;;
  enc <- collect_encodings ;;
  store (set_encodings enc) ;;
  enc <- attr encodings ;;
  (when (negb (Dict.contains fmt enc)) then
     (self_name <- attr name ;;
      raise (SheetManagerDBError
               (NoAuthorityEncoding self_name root fmt (Dict.values enc))))) ;;
  store (set_authority_format fmt) ;;
  enc <- attr encodings ;;
  path <- getitem fmt enc ;;
  store (set_authority path) ;;
  perfs <- collect_performances ;;
  store (set_performances perfs) ;;
  scs <- collect_scores ;;
  store (set_scores scs).

Definition load_score (score_name : string) : M unit :=
  update ;;
  raise NotImplementedError.

Definition load_all_scores (score_name : string) : M unit :=
  raise NotImplementedError.

Definition remove_performance (nm : string) : M unit :=
  update ;;
  perfs <- attr performances ;;
  if negb (Dict.contains nm perfs) then
    self_name <- attr name ;;
    logging.warn (RemoveMissingPerformance self_name nm) ;;
    ret tt
  else
    path <- getitem nm perfs ;;
    shutil.rmtree path ;;
    update.


(** [if midi_file:] holds for a string that is not empty. *)
Definition truthy (x : option string) : bool :=
  match x with
  | Some s => negb (String.eqb s "")
  | None => false
  end.

Section Collaborator.

(** Modelled from the spec: the class [Performance] of
    [sheet_manager.data_model.performance], which is imported by the
    module and is not part of the sources at hand.  Given a performance
    directory path and a piece name it constructs and returns a
    Performance handle; it may validate the folder structure and fail if
    it is malformed.  It is a parameter of the development: it inspects
    the disk and writes nothing. *)
Variable Performance : Type.
Variable Performance_init : string -> string -> node -> result Performance.

Definition new_Performance (dir piece_name : string) : M Performance :=
  fun s => (Performance_init dir piece_name (disk s), s).

Definition load_performance (performance_name : string) : M Performance :=
  update ;;
  perfs <- attr performances ;;
  (when (negb (Dict.contains performance_name perfs)) then
     (self_name <- attr name ;;
      root <- attr collection_root ;;
      raise (SheetManagerDBError
               (NoSuchPerformance self_name root performance_name
                  (Dict.keys perfs))))) ;;
  performance_dir <- getitem performance_name perfs ;;
  self_name <- attr name ;;
  performance <- new_Performance performance_dir self_name ;;
  ret performance.

Definition load_all_performances : M (list Performance) :=
  perfs <- attr performances ;;
  list_comprehension (Dict.keys perfs) (fun p => load_performance p).

Definition add_performance (nm audio_file : string)
    (midi_file : option string) (overwrite : bool) : M unit :=
  perfs <- attr performances ;;
  (when (Dict.contains nm perfs) then
     (if overwrite then
        self_name <- attr name ;;
        logging.warning (PerformanceOverwritten self_name nm) ;;
        time.sleep 5 ;;
        remove_performance nm
      else
        self_name <- attr name ;;
        raise (SheetManagerDBError (PerformanceExists self_name nm)))) ;;
  pd <- attr performance_dir ;;
  let new_performance_dir := join pd nm in
  os.mkdir new_performance_dir ;;
  let audio_fmt := snd (splitext audio_file) in
  let perf_audio_filename := join new_performance_dir (nm ++ audio_fmt) in
  shutil.copyfile audio_file perf_audio_filename ;;
  (when (truthy midi_file) then
     (let midi := match midi_file with Some m => m | None => "" end in
      let midi_fmt := snd (splitext midi) in
      let perf_midi_filename := join new_performance_dir (nm ++ midi_fmt) in
      shutil.copyfile midi perf_midi_filename)) ;;
  update ;;
  _ <- load_performance nm ;;
  ret tt.

End Collaborator.
Arguments load_performance {Performance}.
Arguments load_all_performances {Performance}.
Arguments add_performance {Performance}.

(** The object before [__init__] and the world it starts in. *)
Definition blank : Piece :=
  {| name := ""; folder := ""; collection_root := "";
     performance_dir := ""; score_dir := "";
     metadata := MetadataDict []; encodings := [];
     authority_format := ""; authority := "";
     performances := []; scores := [] |}.

Definition boot (d : node) : state :=
  {| self := blank; disk := d; log := []; open_files := []; next_fileno := 3 |}.

(** The scenario of the specification: collection root [/col] with the
    piece [bach_bwv846], which has a LilyPond and a MIDI encoding. *)
Definition bach : string := "bach_bwv846".
Definition col_disk : node :=
  Dir [("col", Dir [(bach, Dir [("bach_bwv846.ly", File "ly-data");
                                ("bach_bwv846.mid", File "mid-data")])]);
       ("tmp", Dir [("rec.wav", File "wav-data")])].

(** The piece of the scenario after [Piece("bach_bwv846", "/col",
    authority_format="ly")]. *)
Definition bach_state : state := snd (__init__ bach "/col" "ly" (boot col_disk)).

(** [os.path.isfile(p)] on the disk of [s]. *)
Definition isfile_in (s : state) (p : string) : bool :=
  is_file (lookup (resolve p) (disk s)).

(** Whether the path [p] is [q] or an ancestor of [q]. *)
Fixpoint is_prefix (p q : list string) : bool :=
  match p, q with
  | [], _ => true
  | c :: p', d :: q' => String.eqb c d && is_prefix p' q'
  | _ :: _, [] => false
  end.

(** The encodings of a scan of the disk of [s] for the piece of [s]. *)
Definition scan (s : state) : Dict.t string :=
  match collect_encodings s with
  | (Ok enc, _) => enc
  | (Raise _, _) => []
  end.

(** The names in the directory [dir] of the disk [d], and the index that
    [collect_performances] and [collect_scores] build from them. *)
Definition listing (d : node) (dir : string) : list string :=
  match lookup (resolve dir) d with
  | Some (Dir es) => Dict.keys es
  | _ => []
  end.

Definition index (d : node) (dir : string) : Dict.t string :=
  dict_comprehension (listing d dir) (fun n => join dir n).

(** The state that a successful [update] leaves when the two
    directories of the piece exist. *)
Definition refreshed (s : state) : state :=
  with_self (fun p =>
    set_scores (index (disk s) (score_dir p))
      (set_performances (index (disk s) (performance_dir p))
         (set_authority
            (match Dict.get (authority_format p) (scan s) with
             | Some path => path
             | None => authority p
             end)
            (set_authority_format (authority_format p)
               (set_encodings (scan s) p))))) s.

(** A piece as the constructor lays it out. *)
Record wf_piece (p : Piece) : Prop := {
  wf_name : plain (name p) = true;
  wf_performance_dir : performance_dir p = join (folder p) "performances";
  wf_score_dir : score_dir p = join (folder p) "scores";
  wf_format : in_list (authority_format p) AVAILABLE_AUTHORITIES = true
}.

(** A piece whose two directories and whose authority encoding are on
    the disk: [update] succeeds. *)
Record ready (s : state) : Prop := {
  ready_wf : wf_piece (self s);
  ready_performance_dir :
    is_dir (lookup (resolve (performance_dir (self s))) (disk s)) = true;
  ready_score_dir :
    is_dir (lookup (resolve (score_dir (self s))) (disk s)) = true;
  ready_authority :
    Dict.contains (authority_format (self s)) (scan s) = true
}.

(** A variant of the scenario in which the piece has both MIDI files, and
    the same disk after [bach_bwv846.mid] has been deleted. *)
Definition two_midi_disk : node :=
  Dir [("col", Dir [(bach, Dir [("bach_bwv846.mid", File "mid-data");
                                ("bach_bwv846.midi", File "midi-data")])])].

Definition two_midi_disk_mid_removed : node :=
  Dir [("col", Dir [(bach, Dir [("bach_bwv846.midi", File "midi-data");
                                ("performances", Dir []);
                                ("scores", Dir [])])])].

Definition two_midi_state : state :=
  snd (__init__ bach "/col" "midi" (boot two_midi_disk)).

Definition two_midi_after_removal : state :=
  with_disk two_midi_disk_mid_removed two_midi_state.

(** The scenario after [bach_bwv846.ly] has been deleted. *)
Definition col_disk_ly_removed : node :=
  Dir [("col", Dir [(bach, Dir [("bach_bwv846.mid", File "mid-data");
                                ("performances", Dir []);
                                ("scores", Dir [])])]);
       ("tmp", Dir [("rec.wav", File "wav-data")])].







(** The scenario with a performance [take1] and a stray regular file in
    the performances directory, and with a metadata file. *)
Definition col_disk_stray_file : node :=
  Dir [("col", Dir [(bach, Dir [("bach_bwv846.ly", File "ly-data");
                                ("bach_bwv846.mid", File "mid-data");
                                ("meta.yml", File "composer: Bach");
                                ("performances",
                                 Dir [("take1", Dir [("take1.wav", File "wav-data")]);
                                      ("notes.txt", File "todo")]);
                                ("scores", Dir [])])]);
       ("tmp", Dir [("rec.wav", File "wav-data")])].

Definition stray_file_state : state := with_disk col_disk_stray_file bach_state.

Section Yaml.

(** The documents of a YAML stream, as PyYAML parses them. *)
Variable document : Type.
Variable parse_documents : string -> list document.

(** Advancing the generator that [yaml.load_all] returned: the loader
    reads its stream and yields the first document, if there is one. *)
Definition next_document (g : metadata_value) : M (option document) :=
  match g with
  | MetadataGenerator stream =>
      data <- read stream ;;
      ret (hd_error (parse_documents data))
  | MetadataDict _ => ret None
  end.

End Yaml.
Arguments next_document {document}.

(** The attributes that [__init__] stores first, for the piece [nm] of
    the collection [root], and what discovery finds for that piece on
    the disk [d]. *)
Definition located (nm root : string) (s : state) : state :=
  with_self (set_location nm (join root nm) root
               (join (join root nm) "performances")
               (join (join root nm) "scores")) s.

Definition discovered (d : node) (root nm : string) : Dict.t string :=
  scan (located nm root (boot d)).


(** The scenario with two recorded performances, as the index knows it
    after a scan. *)
Definition col_disk_two_takes : node :=
  Dir [("col", Dir [(bach, Dir [("bach_bwv846.ly", File "ly-data");
                                ("bach_bwv846.mid", File "mid-data");
                                ("performances",
                                 Dir [("take1", Dir [("take1.wav", File "wav-1")]);
                                      ("take2", Dir [("take2.wav", File "wav-2");
                                                     ("take2.mid", File "mid-2")])]);
                                ("scores", Dir [])])]);
       ("tmp", Dir [("rec.wav", File "wav-data");
                    ("rec.mid", File "mid-data");
                    ("audio", File "raw-audio");
                    ("midi", File "raw-midi")])].

Definition two_takes_state : state :=
  snd (update (with_disk col_disk_two_takes bach_state)).

(** The content of the regular file at [path], if there is one. *)
Definition source (d : node) (path : string) : option string :=
  match lookup (resolve path) d with
  | Some (File data) => Some data
  | _ => None
  end.

(** The entries that [add_performance] writes into the new directory:
    the copy of the audio file, then the copy of the MIDI file when one
    is given.  [midi] pairs the path of the MIDI source with its
    content. *)
Definition copied_files (nm audio_file adata : string)
    (midi : option (string * string)) : Dict.t node :=
  let audio_copy := [(nm ++ snd (splitext audio_file), File adata)] in
  match midi with
  | Some (midi_file, mdata) =>
      Dict.set (nm ++ snd (splitext midi_file)) (File mdata) audio_copy
  | None => audio_copy
  end.

(** The MIDI argument of [add_performance] with the content of its
    file. *)
Definition midi_source (d : node) (midi_file : option string)
  : option (string * string) :=
  match midi_file with
  | Some m =>
      match source d m with
      | Some mdata => Some (m, mdata)
      | None => None
      end
  | None => None
  end.

(** A collaborator for the examples: it accepts every existing
    directory and hands back its path. *)
Definition accept_directory (dir piece_name : string) (d : node)
  : result string :=
  if is_dir (lookup (resolve dir) d) then Ok dir
  else Raise (OSError FileNotFoundError dir).

(** Piece folders in which a regular file stands where a directory of
    the piece belongs. *)
Definition col_disk_scores_file : node :=
  Dir [("col", Dir [(bach, Dir [("bach_bwv846.ly", File "ly-data");
                                ("scores", File "not a directory")])])].

Definition col_disk_performances_file : node :=
  Dir [("col", Dir [(bach, Dir [("bach_bwv846.ly", File "ly-data");
                                ("performances", File "not a directory")])])].


(** * Properties *)

(** ** Strings and paths *)

Lemma append_assoc (a b c : string) : (a ++ b) ++ c = a ++ (b ++ c).
Proof. induction a as [|x a IH]; simpl; [reflexivity | now rewrite IH]. Qed.

Lemma append_nil_r (a : string) : a ++ "" = a.
Proof. induction a as [|x a IH]; simpl; [reflexivity | now rewrite IH]. Qed.

Lemma startswith_sep_append (b c : string) :
  b <> "" -> startswith_sep (b ++ c) = startswith_sep b.
Proof. destruct b; simpl; [congruence | reflexivity]. Qed.

(** Appending to a joined path is appending to its last component. *)
Lemma join_append (a b c : string) :
  b <> "" -> join a b ++ c = join a (b ++ c).
Proof.
  intros Hb. unfold join. rewrite (startswith_sep_append b c Hb).
  destruct (startswith_sep b); [reflexivity |].
  destruct (String.eqb a "" || endswith_sep a).
  - apply append_assoc.
  - rewrite append_assoc. simpl. reflexivity.
Qed.

Lemma append_suffix_nonempty (a : string) (x : ascii) (b : string) :
  a ++ String x b <> "".
Proof. destruct a; simpl; discriminate. Qed.

Lemma midi_fallback_path (fld nm : string) :
  join fld (nm ++ ".mid") ++ "i" = join fld (nm ++ ".midi").
Proof.
  rewrite join_append by apply append_suffix_nonempty.
  now rewrite append_assoc.
Qed.

(** ** Running the monad *)

Arguments resolve : simpl never.
Arguments join : simpl never.
Arguments lookup : simpl never.
Arguments put : simpl never.
Arguments remove : simpl never.
Arguments String.append : simpl never.

Ltac run :=
  unfold attr, store, os.isdir, os.isfile;
  unfold bind, ret, raise, gets, modify; cbv beta.

Lemma in_list_In (x : string) (l : list string) :
  in_list x l = true <-> In x l.
Proof.
  unfold in_list. rewrite existsb_exists. split.
  - intros [y [Hy E]]. apply String.eqb_eq in E. now subst.
  - intros H. exists x. split; [assumption | apply String.eqb_refl].
Qed.

Lemma contains_get {V} (k : string) (d : Dict.t V) :
  Dict.contains k d = true <-> exists v, Dict.get k d = Some v.
Proof.
  unfold Dict.contains. destruct (Dict.get k d) as [v|].
  - split; [intros _; now exists v | reflexivity].
  - split; [discriminate | intros [v H]; discriminate].
Qed.

(** What [_set_authority] does, by cases on its two checks. *)
Lemma _set_authority_unsupported (fmt : string) (s : state) :
  in_list fmt AVAILABLE_AUTHORITIES = false ->
  _set_authority fmt s = (Raise (ValueError (FormatNotSupported fmt)), s).
Proof. intros H. unfold _set_authority. run. rewrite H. reflexivity. Qed.

Lemma _set_authority_missing (fmt : string) (s : state) :
  in_list fmt AVAILABLE_AUTHORITIES = true ->
  Dict.get fmt (encodings (self s)) = None ->
  _set_authority fmt s =
    (Raise (SheetManagerDBError
              (NoAuthorityEncoding (name (self s)) (collection_root (self s))
                 fmt (Dict.values (encodings (self s))))), s).
Proof.
  intros H G. unfold _set_authority, Dict.contains. run.
  rewrite H. cbn. rewrite G. reflexivity.
Qed.

Lemma _set_authority_found (fmt path : string) (s : state) :
  in_list fmt AVAILABLE_AUTHORITIES = true ->
  Dict.get fmt (encodings (self s)) = Some path ->
  _set_authority fmt s =
    (Ok tt,
     with_self (fun p => set_authority path (set_authority_format fmt p)) s).
Proof.
  intros H G. unfold _set_authority, Dict.contains, getitem. run.
  rewrite H. cbn. rewrite G. cbn. rewrite G. reflexivity.
Qed.

(** C2. [setAuthority(format)] either succeeds and stores the new
    [authority_format] together with [authority = encodings[format]], or
    it raises and leaves the whole state, hence both attributes, as they
    were: [ValueError] (the specification's InvalidArgumentError) for a
    format outside [AVAILABLE_AUTHORITIES], [SheetManagerDBError] with the
    missing-authority message for a format without an entry in
    [encodings]. *)
Theorem C2_set_authority_all_or_nothing (fmt : string) (s : state) :
  (in_list fmt AVAILABLE_AUTHORITIES = false ->
   _set_authority fmt s = (Raise (ValueError (FormatNotSupported fmt)), s))
  /\
  (in_list fmt AVAILABLE_AUTHORITIES = true ->
   Dict.get fmt (encodings (self s)) = None ->
   _set_authority fmt s =
     (Raise (SheetManagerDBError
               (NoAuthorityEncoding (name (self s))
                  (collection_root (self s)) fmt
                  (Dict.values (encodings (self s))))), s))
  /\
  (forall path,
   in_list fmt AVAILABLE_AUTHORITIES = true ->
   Dict.get fmt (encodings (self s)) = Some path ->
   exists s',
     _set_authority fmt s = (Ok tt, s') /\
     authority_format (self s') = fmt /\
     authority (self s') = path /\
     Dict.get (authority_format (self s')) (encodings (self s'))
       = Some (authority (self s')) /\
     s' = with_self
            (fun p => set_authority path (set_authority_format fmt p)) s).
Proof.
  split; [apply _set_authority_unsupported |].
  split; [apply _set_authority_missing |].
  intros path H G. eexists. split; [apply (_set_authority_found _ _ _ H G) |].
  cbn. auto.
Qed.

Lemma C2_set_authority_witness :
  exists s',
    _set_authority "midi" bach_state = (Ok tt, s') /\
    authority_format (self s') = "midi" /\
    authority (self s') = "/col/bach_bwv846/bach_bwv846.mid".
Proof.
  destruct (C2_set_authority_all_or_nothing "midi" bach_state)
    as [_ [_ H]].
  destruct (H "/col/bach_bwv846/bach_bwv846.mid") as [s' [E [F [A _]]]];
    [reflexivity | reflexivity |].
  exists s'. auto.
Defined.

(** C3. Encoding discovery for the piece named [P] in folder [F] returns
    without raising and without changing the state (no write, no log
    record), and the mapping it returns binds [mxml] to [F/P.xml], [ly] to
    [F/P.ly] and [mei] to [F/P.mei] exactly when these are regular files,
    binds [midi] to [F/P.mid] when that is a file and otherwise to
    [F/P.midi] when that is a file, and has no other key. *)
Theorem C3_collect_encodings_exact (s : state) :
  let F := folder (self s) in
  let P := name (self s) in
  let candidate (p : string) := if isfile_in s p then Some p else None in
  exists enc,
    collect_encodings s = (Ok enc, s) /\
    Dict.get "mxml" enc = candidate (join F (P ++ ".xml")) /\
    Dict.get "ly" enc = candidate (join F (P ++ ".ly")) /\
    Dict.get "midi" enc =
      (if isfile_in s (join F (P ++ ".mid"))
       then Some (join F (P ++ ".mid"))
       else candidate (join F (P ++ ".midi"))) /\
    Dict.get "mei" enc = candidate (join F (P ++ ".mei")) /\
    incl (Dict.keys enc) ["mxml"; "ly"; "midi"; "mei"] /\
    NoDup (Dict.keys enc).
Proof.
  intros F P candidate. unfold collect_encodings. run.
  subst candidate. unfold isfile_in. fold F. fold P.
  rewrite midi_fallback_path.
  destruct (is_file (lookup (resolve (join F (P ++ ".xml"))) (disk s))) eqn:Exml;
  destruct (is_file (lookup (resolve (join F (P ++ ".ly"))) (disk s))) eqn:Ely;
  destruct (is_file (lookup (resolve (join F (P ++ ".mid"))) (disk s))) eqn:Emid;
  cbn [negb]; rewrite ?Emid;
  destruct (is_file (lookup (resolve (join F (P ++ ".midi"))) (disk s))) eqn:Emidi;
  destruct (is_file (lookup (resolve (join F (P ++ ".mei"))) (disk s))) eqn:Emei;
  (eexists; split; [reflexivity |]);
  cbn;
  repeat (split; [reflexivity |]);
  (split;
   [ intros k Hk; cbn in Hk |- *; tauto
   | repeat constructor; cbn; intuition discriminate ]).
Qed.

(** ** Dictionaries *)

Section DictFacts.
Context {V : Type}.
Implicit Types (d : Dict.t V) (k : string) (v : V).

Lemma get_set_same d k v : Dict.get k (Dict.set k v d) = Some v.
Proof.
  induction d as [|[k' v'] d IH]; cbn.
  - now rewrite String.eqb_refl.
  - destruct (String.eqb k' k) eqn:E; cbn.
    + now rewrite String.eqb_refl.
    + now rewrite E.
Qed.

Lemma get_set_other d k k' v :
  k' <> k -> Dict.get k' (Dict.set k v d) = Dict.get k' d.
Proof.
  intros N. induction d as [|[k0 v0] d IH]; cbn.
  - destruct (String.eqb_spec k k'); [congruence | reflexivity].
  - destruct (String.eqb_spec k0 k); cbn.
    + subst k0. destruct (String.eqb_spec k k'); [congruence | reflexivity].
    + destruct (String.eqb_spec k0 k'); [reflexivity | exact IH].
Qed.



Lemma get_In_keys d k v : Dict.get k d = Some v -> In k (Dict.keys d).
Proof.
  induction d as [|[k' v'] d IH]; cbn; [discriminate |].
  destruct (String.eqb_spec k' k); [now left | intros H; right; auto].
Qed.

Lemma In_keys_get d k : In k (Dict.keys d) -> exists v, Dict.get k d = Some v.
Proof.
  induction d as [|[k' v'] d IH]; cbn; [tauto |].
  destruct (String.eqb_spec k' k) as [E|N].
  - intros _. now exists v'.
  - intros [E|H]; [congruence | auto].
Qed.

Lemma get_None_keys d k : Dict.get k d = None <-> ~ In k (Dict.keys d).
Proof.
  split.
  - intros G H. destruct (In_keys_get _ _ H) as [v E]. congruence.
  - intros H. destruct (Dict.get k d) eqn:E; [| reflexivity].
    exfalso. apply H. eapply get_In_keys; eassumption.
Qed.

Lemma keys_set d k v :
  Dict.keys (Dict.set k v d) =
    if Dict.contains k d then Dict.keys d else (Dict.keys d ++ [k])%list.
Proof.
  unfold Dict.contains, Dict.keys.
  induction d as [|[k' v'] d IH]; cbn; [reflexivity |].
  destruct (String.eqb_spec k' k); cbn.
  - now subst.
  - rewrite IH. now destruct (Dict.get k d).
Qed.


Lemma get_In_values d k v : Dict.get k d = Some v -> In v (Dict.values d).
Proof.
  induction d as [|[k' v'] d IH]; cbn; [discriminate |].
  destruct (String.eqb k' k).
  - intros [= ->]. now left.
  - intros H. right. auto.
Qed.

End DictFacts.

(** The keys of a dict comprehension are the names it was built from. *)
Lemma dict_comprehension_keys {V} (l : list string) (f : string -> V) (k : string) :
  In k (Dict.keys (dict_comprehension l f)) <-> In k l.
Proof.
  unfold dict_comprehension.
  assert (G : forall acc : Dict.t V,
    In k (Dict.keys (fold_left (fun d k => Dict.set k (f k) d) l acc))
    <-> In k (Dict.keys acc) \/ In k l).
  { induction l as [|x l IH]; intros acc; cbn [fold_left In]; [tauto |].
    rewrite IH, keys_set. destruct (Dict.contains x acc) eqn:C.
    - apply contains_get in C. destruct C as [v C].
      apply get_In_keys in C. split; [tauto |].
      intros [H|[H|H]]; subst; tauto.
    - rewrite in_app_iff. cbn. tauto. }
  rewrite G. cbn. tauto.
Qed.

Lemma dict_comprehension_get {V} (l : list string) (f : string -> V) (k : string) :
  Dict.get k (dict_comprehension l f) = if in_list k l then Some (f k) else None.
Proof.
  unfold dict_comprehension.
  assert (G : forall acc : Dict.t V,
    Dict.get k (fold_left (fun d k => Dict.set k (f k) d) l acc)
    = if in_list k l then Some (f k) else Dict.get k acc).
  { induction l as [|x l IH]; intros acc; cbn [fold_left]; [reflexivity |].
    rewrite IH. unfold in_list. cbn [existsb]. fold (in_list k l).
    destruct (in_list k l).
    - now rewrite orb_true_r.
    - rewrite orb_false_r. destruct (String.eqb_spec k x).
      + subst. apply get_set_same.
      + now apply get_set_other. }
  rewrite G. reflexivity.
Qed.

Lemma set_set {V} (d : Dict.t V) (k : string) (v w : V) :
  Dict.set k w (Dict.set k v d) = Dict.set k w d.
Proof.
  induction d as [|[k' v'] d IH]; cbn.
  - now rewrite String.eqb_refl.
  - destruct (String.eqb k' k) eqn:E; cbn.
    + now rewrite String.eqb_refl.
    + now rewrite E, IH.
Qed.

(** ** The directory tree *)

Lemma lookup_cons (c : string) (q : list string) (t : node) :
  lookup (c :: q) t =
    match t with
    | Dir es => match Dict.get c es with
                | Some t' => lookup q t'
                | None => None
                end
    | File _ => None
    end.
Proof. reflexivity. Qed.

Lemma lookup_cons_inv (c : string) (q : list string) (t t0 : node) :
  lookup (c :: q) t = Some t0 ->
  exists es t1, t = Dir es /\ Dict.get c es = Some t1 /\ lookup q t1 = Some t0.
Proof.
  rewrite lookup_cons. destruct t as [|es]; [discriminate |].
  destruct (Dict.get c es) as [t1|] eqn:G; [| discriminate].
  intros H. now exists es, t1.
Qed.

Lemma lookup_app (p q : list string) (t : node) :
  lookup (p ++ q) t =
    match lookup p t with
    | Some t' => lookup q t'
    | None => None
    end.
Proof.
  revert t. induction p as [|c p IH]; intros t; [reflexivity |].
  cbn [app]. rewrite !lookup_cons. destruct t as [|es]; [reflexivity |].
  destruct (Dict.get c es); [apply IH | reflexivity].
Qed.

Lemma put_cons_existing (c : string) (q : list string) (v : node)
    (es : Dict.t node) (t1 : node) :
  Dict.get c es = Some t1 ->
  put (c :: q) v (Dir es) = Dir (Dict.set c (put q v t1) es).
Proof.
  intros G. destruct q; unfold put; fold put; [reflexivity |].
  now rewrite G.
Qed.

Lemma put_last (n : string) (v : node) (es : Dict.t node) :
  put [n] v (Dir es) = Dir (Dict.set n v es).
Proof. reflexivity. Qed.

Lemma remove_last (n : string) (es : Dict.t node) :
  remove [n] (Dir es) = Dir (Dict.del n es).
Proof. reflexivity. Qed.

(** A write below an existing node is a write of the changed node. *)
Lemma put_app (p q : list string) (v t t' : node) :
  lookup p t = Some t' -> put (p ++ q) v t = put p (put q v t') t.
Proof.
  revert t. induction p as [|c p IH]; intros t H.
  - injection H as ->. reflexivity.
  - destruct (lookup_cons_inv _ _ _ _ H) as [es [t1 [-> [G L]]]].
    cbn [app]. rewrite !(put_cons_existing _ _ _ _ _ G).
    now rewrite (IH _ L).
Qed.


Lemma lookup_put_below (p r : list string) (v t t0 : node) :
  lookup p t = Some t0 -> lookup (p ++ r) (put p v t) = lookup r v.
Proof.
  revert t. induction p as [|c p IH]; intros t H; [reflexivity |].
  destruct (lookup_cons_inv _ _ _ _ H) as [es [t1 [-> [G L]]]].
  rewrite (put_cons_existing _ _ _ _ _ G). cbn [app].
  rewrite lookup_cons, get_set_same. now apply IH.
Qed.

Lemma lookup_put_same (p : list string) (v t t0 : node) :
  lookup p t = Some t0 -> lookup p (put p v t) = Some v.
Proof.
  intros H. rewrite <- (app_nil_r p) at 1.
  now rewrite (lookup_put_below _ _ _ _ _ H).
Qed.

(** A write leaves every path alone that neither leads to it nor lies
    below it. *)
Lemma lookup_put_diverge (p q : list string) (v t t0 : node) :
  lookup p t = Some t0 ->
  is_prefix p q = false -> is_prefix q p = false ->
  lookup q (put p v t) = lookup q t.
Proof.
  revert q t. induction p as [|c p IH]; intros q t H Hpq Hqp;
    [discriminate |].
  destruct (lookup_cons_inv _ _ _ _ H) as [es [t1 [-> [G L]]]].
  rewrite (put_cons_existing _ _ _ _ _ G).
  destruct q as [|d q]; [discriminate |].
  cbn [is_prefix] in Hpq, Hqp. rewrite !lookup_cons.
  destruct (String.eqb_spec c d) as [<-|N].
  - rewrite String.eqb_refl in Hqp. cbn in Hpq, Hqp.
    rewrite get_set_same, G. now apply IH.
  - rewrite get_set_other by congruence. reflexivity.
Qed.

(** The nodes on the way to an existing node are directories, before and
    after a write to it. *)
Lemma lookup_put_above (p q : list string) (v t t0 : node) :
  lookup p t = Some t0 ->
  is_prefix p q = false -> is_prefix q p = true ->
  is_dir (lookup q (put p v t)) = true /\ is_dir (lookup q t) = true.
Proof.
  revert q t. induction p as [|c p IH]; intros q t H Hpq Hqp;
    [discriminate |].
  destruct (lookup_cons_inv _ _ _ _ H) as [es [t1 [-> [G L]]]].
  rewrite (put_cons_existing _ _ _ _ _ G).
  destruct q as [|d q]; [split; reflexivity |].
  cbn [is_prefix] in Hpq, Hqp. rewrite !lookup_cons.
  destruct (String.eqb_spec d c) as [->|N]; [| discriminate].
  rewrite String.eqb_refl in Hpq. cbn in Hpq, Hqp.
  rewrite get_set_same, G. now apply IH.
Qed.

Lemma is_file_put_off (p q : list string) (v t t0 : node) :
  lookup p t = Some t0 -> is_prefix p q = false ->
  is_file (lookup q (put p v t)) = is_file (lookup q t).
Proof.
  intros H Hpq. destruct (is_prefix q p) eqn:Hqp.
  - destruct (lookup_put_above _ _ v _ _ H Hpq Hqp) as [A B].
    destruct (lookup q (put p v t)) as [[|]|]; try discriminate.
    destruct (lookup q t) as [[|]|]; try discriminate. reflexivity.
  - now rewrite (lookup_put_diverge _ _ _ _ _ H Hpq Hqp).
Qed.

Lemma is_dir_put_off (p q : list string) (v t t0 : node) :
  lookup p t = Some t0 -> is_prefix p q = false ->
  is_dir (lookup q (put p v t)) = is_dir (lookup q t).
Proof.
  intros H Hpq. destruct (is_prefix q p) eqn:Hqp.
  - destruct (lookup_put_above _ _ v _ _ H Hpq Hqp) as [A B]. congruence.
  - now rewrite (lookup_put_diverge _ _ _ _ _ H Hpq Hqp).
Qed.

Lemma put_put (p : list string) (v w t t0 : node) :
  lookup p t = Some t0 -> put p w (put p v t) = put p w t.
Proof.
  revert t. induction p as [|c p IH]; intros t H; [reflexivity |].
  destruct (lookup_cons_inv _ _ _ _ H) as [es [t1 [-> [G L]]]].
  rewrite (put_cons_existing c p v _ _ G), (put_cons_existing c p w _ _ G).
  rewrite (put_cons_existing c p w _ _ (get_set_same es c _)).
  now rewrite set_set, (IH _ L).
Qed.

Lemma is_prefix_spec (p q : list string) :
  is_prefix p q = true <-> exists r, q = (p ++ r)%list.
Proof.
  revert q. induction p as [|c p IH]; intros q; cbn.
  - split; [intros _; now exists q | reflexivity].
  - destruct q as [|d q].
    + split; [discriminate | intros [r E]; discriminate].
    + rewrite andb_true_iff, String.eqb_eq, IH. split.
      * intros [-> [r ->]]. now exists r.
      * intros [r E]. injection E as -> ->. split; [reflexivity | now exists r].
Qed.

Lemma is_prefix_app (p r : list string) : is_prefix p (p ++ r) = true.
Proof. apply is_prefix_spec. now exists r. Qed.

Lemma is_prefix_refl (p : list string) : is_prefix p p = true.
Proof. apply is_prefix_spec. exists []. now rewrite app_nil_r. Qed.

(** ** Resolution of joined paths *)

Lemma split_sep_nonempty (p : string) : split_sep p <> [].
Proof.
  destruct p as [|c r]; cbn; [discriminate |].
  destruct (Ascii.eqb c sep); [discriminate |].
  destruct (split_sep r); discriminate.
Qed.

Lemma split_sep_plain (b : string) : no_char sep b = true -> split_sep b = [b].
Proof.
  induction b as [|c r IH]; cbn; [reflexivity |].
  destruct (Ascii.eqb c sep); cbn; [discriminate |].
  intros H. now rewrite (IH H).
Qed.

Lemma append_cons (c : ascii) (a b : string) :
  String c a ++ b = String c (a ++ b).
Proof. reflexivity. Qed.

Lemma append_nil_l (b : string) : "" ++ b = b.
Proof. reflexivity. Qed.

Lemma split_sep_append (a b : string) :
  split_sep (a ++ String sep b) = (split_sep a ++ split_sep b)%list.
Proof.
  induction a as [|c r IH].
  - rewrite append_nil_l. cbn -[sep]. now rewrite Ascii.eqb_refl.
  - rewrite append_cons. cbn -[sep]. rewrite IH.
    destruct (Ascii.eqb c sep); [reflexivity |].
    destruct (split_sep r) eqn:E; [now apply split_sep_nonempty in E |].
    reflexivity.
Qed.

Lemma endswith_sep_inv (a : string) :
  endswith_sep a = true -> exists a', a = a' ++ String sep "".
Proof.
  induction a as [|c r IH]; cbn; [discriminate |].
  destruct r as [|d r'].
  - intros H. apply Ascii.eqb_eq in H. subst c. now exists "".
  - intros H. destruct (IH H) as [a' E]. exists (String c a').
    rewrite append_cons. now rewrite <- E.
Qed.

Lemma plain_parts (n : string) :
  plain n = true ->
  n <> "" /\ n <> "." /\ n <> ".." /\ no_char sep n = true.
Proof.
  unfold plain. rewrite !andb_true_iff, !negb_true_iff, !String.eqb_neq.
  tauto.
Qed.

Lemma plain_not_absolute (n : string) : plain n = true -> startswith_sep n = false.
Proof.
  intros H. apply plain_parts in H. destruct H as [_ [_ [_ H]]].
  destruct n as [|c r]; [reflexivity |]. cbn in H |- *.
  apply andb_true_iff in H. destruct H as [H _].
  now apply negb_true_iff in H.
Qed.

Lemma resolve_step_plain (stack : list string) (n : string) :
  plain n = true -> resolve_step stack n = (stack ++ [n])%list.
Proof.
  intros H. apply plain_parts in H. destruct H as [A [B [C _]]].
  unfold resolve_step.
  apply String.eqb_neq in A, B, C. now rewrite A, B, C.
Qed.

(** A joined plain name resolves to one more component. *)
Lemma resolve_join (a n : string) :
  plain n = true -> resolve (join a n) = (resolve a ++ [n])%list.
Proof.
  intros H. unfold join. rewrite (plain_not_absolute _ H).
  pose proof (plain_parts _ H) as [_ [_ [_ Hs]]].
  unfold resolve.
  destruct (String.eqb_spec a "") as [->|Na]; cbn [orb].
  - rewrite append_nil_l, (split_sep_plain _ Hs). cbn.
    now rewrite (resolve_step_plain [] _ H).
  - destruct (endswith_sep a) eqn:E.
    + destruct (endswith_sep_inv _ E) as [a' ->].
      rewrite append_assoc, append_cons, append_nil_l.
      rewrite !split_sep_append, (split_sep_plain _ Hs).
      cbn [split_sep]. rewrite !fold_left_app. cbn.
      now rewrite (resolve_step_plain _ _ H).
    + change (a ++ "/" ++ n) with (a ++ String sep n).
      rewrite split_sep_append, (split_sep_plain _ Hs), fold_left_app. cbn.
      now rewrite (resolve_step_plain _ _ H).
Qed.

Lemma no_char_append (c : ascii) (a b : string) :
  no_char c (a ++ b) = no_char c a && no_char c b.
Proof.
  induction a as [|x a IH]; [reflexivity |].
  rewrite append_cons. cbn. now rewrite IH, andb_assoc.
Qed.

(** A plain name stays plain when a suffix without separator is put
    after it. *)
Lemma plain_append (n e : string) :
  plain n = true -> no_char sep e = true -> plain (n ++ e) = true.
Proof.
  intros H He. pose proof (plain_parts _ H) as [A [B [C D]]].
  unfold plain. rewrite no_char_append, D, He.
  rewrite !andb_true_r, !andb_true_iff, !negb_true_iff, !String.eqb_neq.
  destruct e as [|u e]; [rewrite append_nil_r; tauto |].
  destruct n as [|x [|y n]]; [congruence | |].
  - rewrite append_cons, append_nil_l.
    repeat split; try discriminate.
    intros E. injection E as Ex Eu Ee. subst. congruence.
  - rewrite !append_cons.
    repeat split; try discriminate.
    destruct n; [rewrite append_nil_l | rewrite append_cons]; discriminate.
Qed.

(** ** Extensions *)

Lemma rfind_lower (c : ascii) (p : string) : (-1 <= rfind c p)%Z.
Proof.
  induction p as [|d r IH]; cbn; [lia |].
  destruct (0 <=? rfind c r)%Z eqn:E; [lia |].
  destruct (Ascii.eqb d c); lia.
Qed.

Lemma rfind_drop (c : ascii) (p : string) (n : nat) :
  (rfind c p < Z.of_nat n)%Z -> no_char c (drop n p) = true.
Proof.
  revert n. induction p as [|d r IH]; intros n H.
  - destruct n; reflexivity.
  - cbn [rfind] in H. destruct n as [|m].
    + cbn [drop no_char].
      destruct (0 <=? rfind c r)%Z eqn:E; [apply Z.leb_le in E; lia |].
      apply Z.leb_gt in E.
      destruct (Ascii.eqb d c); [lia |]. cbn.
      apply (IH 0%nat). lia.
    + cbn [drop]. apply IH.
      destruct (0 <=? rfind c r)%Z eqn:E; [lia |].
      apply Z.leb_gt in E. lia.
Qed.

(** The extension that [splitext] splits off contains no separator. *)
Lemma splitext_no_sep (p : string) : no_char sep (snd (splitext p)) = true.
Proof.
  unfold splitext.
  destruct (rfind extsep p >? rfind sep p)%Z eqn:E; [| reflexivity].
  destruct (non_dot_before _ _ _); [| reflexivity].
  cbn [snd]. apply rfind_drop.
  pose proof (rfind_lower sep p). apply Z.gtb_lt in E. lia.
Qed.

(** ** The methods, step by step *)

Lemma bind_ok {A B} (c : M A) (k : A -> M B) (s s' : state) (a : A) :
  c s = (Ok a, s') -> bind c k s = k a s'.
Proof. intros H. unfold bind. now rewrite H. Qed.

Lemma bind_raise {A B} (c : M A) (k : A -> M B) (s s' : state) (e : exn) :
  c s = (Raise e, s') -> bind c k s = (Raise e, s').
Proof. intros H. unfold bind. now rewrite H. Qed.

(** Encoding discovery returns, and changes nothing. *)
Lemma collect_encodings_total (s : state) :
  exists enc, collect_encodings s = (Ok enc, s).
Proof.
  unfold collect_encodings. run.
  repeat match goal with
         | |- context [is_file ?o] => destruct (is_file o)
         end; eexists; reflexivity.
Qed.

Lemma collect_encodings_scan (s : state) :
  collect_encodings s = (Ok (scan s), s).
Proof.
  unfold scan. destruct (collect_encodings_total s) as [enc E].
  now rewrite E.
Qed.

(** Discovery looks at the name, the folder and, on the disk, at files
    named after the piece in its folder only. *)
Lemma scan_ext (s s' : state) :
  name (self s) = name (self s') -> folder (self s) = folder (self s') ->
  (forall e, no_char sep e = true ->
     isfile_in s (join (folder (self s)) (name (self s) ++ e))
     = isfile_in s' (join (folder (self s)) (name (self s) ++ e))) ->
  scan s = scan s'.
Proof.
  intros N F D. unfold scan, collect_encodings. run.
  unfold isfile_in in D. rewrite <- N, <- F.
  rewrite <- (D ".xml" eq_refl), <- (D ".ly" eq_refl), <- (D ".mid" eq_refl),
    <- (D ".mei" eq_refl).
  destruct (is_file (lookup (resolve (join (folder (self s))
              (name (self s) ++ ".mid"))) (disk s))) eqn:E; cbn [negb];
    rewrite ?midi_fallback_path, <- ?(D ".mid" eq_refl),
      <- ?(D ".midi" eq_refl), ?E; reflexivity.
Qed.

(** Every path that discovery returns is a regular file. *)
Lemma scan_values_exist (s : state) :
  Forall (fun p => isfile_in s p = true) (Dict.values (scan s)).
Proof.
  unfold scan, collect_encodings. run. unfold isfile_in.
  destruct (is_file (lookup (resolve (join (folder (self s)) (name (self s) ++ ".xml"))) (disk s))) eqn:Exml;
  destruct (is_file (lookup (resolve (join (folder (self s)) (name (self s) ++ ".ly"))) (disk s))) eqn:Ely;
  destruct (is_file (lookup (resolve (join (folder (self s)) (name (self s) ++ ".mid"))) (disk s))) eqn:Emid;
  cbn [negb]; rewrite ?Emid;
  destruct (is_file (lookup (resolve (join (folder (self s)) (name (self s) ++ ".mid") ++ "i")) (disk s))) eqn:Emidi;
  destruct (is_file (lookup (resolve (join (folder (self s)) (name (self s) ++ ".mei"))) (disk s))) eqn:Emei;
  cbn; repeat constructor; assumption.
Qed.

Lemma bind_store {B} (f : Piece -> Piece) (k : unit -> M B) (s : state) :
  bind (store f) k s = k tt (with_self f s).
Proof. reflexivity. Qed.

Lemma bind_attr {A B} (f : Piece -> A) (k : A -> M B) (s : state) :
  bind (attr f) k s = k (f (self s)) s.
Proof. reflexivity. Qed.

Lemma bind_ret {A B} (a : A) (k : A -> M B) (s : state) :
  bind (ret a) k s = k a s.
Proof. reflexivity. Qed.

Lemma bind_isdir {B} (path : string) (k : bool -> M B) (s : state) :
  bind (os.isdir path) k s = k (is_dir (lookup (resolve path) (disk s))) s.
Proof. reflexivity. Qed.

Lemma bind_isfile {B} (path : string) (k : bool -> M B) (s : state) :
  bind (os.isfile path) k s = k (is_file (lookup (resolve path) (disk s))) s.
Proof. reflexivity. Qed.

Lemma bind_assoc {A B C} (c : M A) (k1 : A -> M B) (k2 : B -> M C)
    (s : state) :
  bind (bind c k1) k2 s = bind c (fun a => bind (k1 a) k2) s.
Proof. unfold bind. destruct (c s) as [[a|e] s']; reflexivity. Qed.

Ltac step :=
  repeat match goal with
    | |- context [bind (bind ?c ?k1) ?k2 ?s] => rewrite (bind_assoc c k1 k2 s)
    | |- context [bind (store ?f) ?k ?s] => rewrite (bind_store f k s)
    | |- context [bind (attr ?f) ?k ?s] => rewrite (bind_attr f k s)
    | |- context [bind (ret ?a) ?k ?s] => rewrite (bind_ret a k s)
    | |- context [bind (os.isdir ?p) ?k ?s] => rewrite (bind_isdir p k s)
    | |- context [bind (os.isfile ?p) ?k ?s] => rewrite (bind_isfile p k s)
    end.

Lemma _ensure_piece_structure_noop (s : state) :
  is_dir (lookup (resolve (performance_dir (self s))) (disk s)) = true ->
  is_dir (lookup (resolve (score_dir (self s))) (disk s)) = true ->
  _ensure_piece_structure s = (Ok tt, s).
Proof.
  intros P S. unfold _ensure_piece_structure. step. rewrite P. cbn [negb].
  step. rewrite S. reflexivity.
Qed.

Lemma listdir_dir (path : string) (s : state) :
  is_dir (lookup (resolve path) (disk s)) = true ->
  os.listdir path s = (Ok (listing (disk s) path), s).
Proof.
  unfold os.listdir, listing.
  destruct (lookup (resolve path) (disk s)) as [[|es]|]; try discriminate.
  reflexivity.
Qed.

Lemma collect_performances_dir (s : state) :
  is_dir (lookup (resolve (performance_dir (self s))) (disk s)) = true ->
  collect_performances s = (Ok (index (disk s) (performance_dir (self s))), s).
Proof.
  intros P. unfold collect_performances. step.
  rewrite (bind_ok _ _ _ _ _ (listdir_dir _ _ P)). reflexivity.
Qed.

Lemma collect_scores_dir (s : state) :
  is_dir (lookup (resolve (score_dir (self s))) (disk s)) = true ->
  collect_scores s = (Ok (index (disk s) (score_dir (self s))), s).
Proof.
  intros P. unfold collect_scores. step.
  rewrite (bind_ok _ _ _ _ _ (listdir_dir _ _ P)). reflexivity.
Qed.

(** [update] on a ready piece. *)
Lemma update_ready (s : state) : ready s -> update s = (Ok tt, refreshed s).
Proof.
  intros [W P S A]. apply contains_get in A. destruct A as [path G].
  unfold update.
  rewrite (bind_ok _ _ _ _ _ (collect_encodings_scan s)). step.
  erewrite bind_ok
    by (apply (_set_authority_found _ path); [exact (wf_format _ W) | exact G]).
  erewrite bind_ok
    by (apply _ensure_piece_structure_noop; [exact P | exact S]).
  erewrite bind_ok by (apply collect_performances_dir; exact P). step.
  erewrite bind_ok by (apply collect_scores_dir; exact S). step.
  unfold refreshed, with_self. cbv beta. rewrite G. reflexivity.
Qed.

(** [update] when the scan has no file for the authority format: the
    exception leaves [encodings] replaced and the rest as it was. *)
Lemma update_authority_missing (s : state) :
  in_list (authority_format (self s)) AVAILABLE_AUTHORITIES = true ->
  Dict.get (authority_format (self s)) (scan s) = None ->
  update s =
    (Raise (SheetManagerDBError
              (NoAuthorityEncoding (name (self s)) (collection_root (self s))
                 (authority_format (self s)) (Dict.values (scan s)))),
     with_self (set_encodings (scan s)) s).
Proof.
  intros H G. unfold update.
  rewrite (bind_ok _ _ _ _ _ (collect_encodings_scan s)). step.
  erewrite bind_raise; [reflexivity |].
  apply _set_authority_missing; [exact H | exact G].
Qed.

(** C10 (amended). When [update()] is called after the authority file
    has been removed and the new scan has no file for [authority_format]
    (for [midi]: neither [P.mid] nor [P.midi]), it raises the
    missing-authority error after [self.encodings] has been replaced by
    the new scan: [authority_format] is then not a key of [encodings],
    [authority] is not among its paths, and [performances], [scores] and
    the disk are as before the call. *)
Theorem C10_update_not_atomic (s : state) :
  in_list (authority_format (self s)) AVAILABLE_AUTHORITIES = true ->
  isfile_in s (authority (self s)) = false ->
  Dict.get (authority_format (self s)) (scan s) = None ->
  exists s',
    update s =
      (Raise (SheetManagerDBError
                (NoAuthorityEncoding (name (self s))
                   (collection_root (self s)) (authority_format (self s))
                   (Dict.values (scan s)))), s') /\
    encodings (self s') = scan s /\
    authority_format (self s') = authority_format (self s) /\
    authority (self s') = authority (self s) /\
    ~ In (authority_format (self s')) (Dict.keys (encodings (self s'))) /\
    ~ In (authority (self s')) (Dict.values (encodings (self s'))) /\
    performances (self s') = performances (self s) /\
    scores (self s') = scores (self s) /\
    disk s' = disk s.
Proof.
  intros H R G. eexists. split; [apply (update_authority_missing s H G) |].
  cbn. repeat split.
  - now apply get_None_keys.
  - intros I. pose proof (scan_values_exist s) as F.
    rewrite Forall_forall in F. apply F in I. congruence.
Qed.

Lemma C10_update_not_atomic_witness :
  exists s',
    fst (update (with_disk col_disk_ly_removed bach_state)) =
      Raise (SheetManagerDBError
               (NoAuthorityEncoding bach "/col" "ly"
                  ["/col/bach_bwv846/bach_bwv846.mid"])) /\
    snd (update (with_disk col_disk_ly_removed bach_state)) = s' /\
    authority_format (self s') = "ly" /\
    Dict.keys (encodings (self s')) = ["midi"] /\
    authority (self s') = "/col/bach_bwv846/bach_bwv846.ly".
Proof.
  destruct (C10_update_not_atomic (with_disk col_disk_ly_removed bach_state))
    as [s' [E [A [B [C _]]]]]; [reflexivity | reflexivity | reflexivity |].
  exists s'. rewrite E. cbn [fst snd]. rewrite B, C, A. repeat split.
Defined.

(** C10 as stated fails for [midi]: the authority file [P.mid] has been
    removed, and [update()] returns without raising because [P.midi] is
    there; the authority moves to it. *)
Lemma C10_counterexample :
  authority (self two_midi_after_removal)
    = "/col/bach_bwv846/bach_bwv846.mid" /\
  isfile_in two_midi_after_removal (authority (self two_midi_after_removal))
    = false /\
  fst (update two_midi_after_removal) = Ok tt /\
  authority (self (snd (update two_midi_after_removal)))
    = "/col/bach_bwv846/bach_bwv846.midi".
Proof. vm_compute. repeat split. Qed.

(** ** Operations that leave the authority alone *)



















Lemma bind_raise_now {A B} (e : exn) (k : A -> M B) (s : state) :
  bind (raise e) k s = (Raise e, s).
Proof. reflexivity. Qed.



(** ** The authority invariant along a run *)






(** ** Listing performances and scores *)

(** The keys of the index are all the names in the directory, whatever
    they name. *)
Lemma index_keys (d : node) (dir n : string) :
  In n (Dict.keys (index d dir)) <-> In n (listing d dir).
Proof. apply dict_comprehension_keys. Qed.

(** C5 (the code at the failing input). The performances directory
    holds the directory [take1] and the regular file [notes.txt]:
    [collect_performances] returns both names as keys, and so does the
    index after [update()], although [notes.txt] is not a directory. *)
Theorem C5_files_are_listed :
  fst (collect_performances stray_file_state) =
    Ok [("take1", "/col/bach_bwv846/performances/take1");
        ("notes.txt", "/col/bach_bwv846/performances/notes.txt")] /\
  fst (os.isdir "/col/bach_bwv846/performances/notes.txt" stray_file_state)
    = Ok false /\
  fst (update stray_file_state) = Ok tt /\
  Dict.keys (performances (self (snd (update stray_file_state))))
    = ["take1"; "notes.txt"].
Proof. vm_compute. repeat split. Qed.

(** ** Metadata *)

Lemma closed_after_filter (n : nat) (l : list nat) :
  existsb (Nat.eqb n) (filter (fun m => negb (Nat.eqb m n)) l) = false.
Proof.
  induction l as [|m l IH]; cbn; [reflexivity |].
  destruct (Nat.eqb_spec m n); cbn; [exact IH |].
  destruct (Nat.eqb_spec n m); [congruence | exact IH].
Qed.

Lemma load_metadata_absent (s : state) :
  isfile_in s (join (folder (self s)) DEFAULT_META_FNAME) = false ->
  load_metadata s =
    (Ok (MetadataDict []),
     {| self := self s; disk := disk s;
        log := log s ++ [NoMetadataFile (name (self s)) DEFAULT_META_FNAME];
        open_files := open_files s; next_fileno := next_fileno s |}).
Proof.
  unfold isfile_in. intros H. unfold load_metadata. step. rewrite H.
  reflexivity.
Qed.

Lemma load_metadata_present (s : state) :
  isfile_in s (join (folder (self s)) DEFAULT_META_FNAME) = true ->
  load_metadata s =
    (Ok (MetadataGenerator
           {| fileno := next_fileno s;
              fname := join (folder (self s)) DEFAULT_META_FNAME |}),
     {| self := self s; disk := disk s; log := log s;
        open_files :=
          filter (fun n => negb (Nat.eqb n (next_fileno s)))
            (next_fileno s :: open_files s);
        next_fileno := S (next_fileno s) |}).
Proof.
  unfold isfile_in. intros H. unfold load_metadata. step. rewrite H.
  cbn [negb]. unfold with_open, open, bind, finally, yaml.load_all, close,
    modify, ret.
  destruct (lookup (resolve (join (folder (self s)) DEFAULT_META_FNAME))
              (disk s)) as [[|]|]; try discriminate.
  reflexivity.
Qed.

(** C6 (the code at the failing input). Loading the metadata never
    raises.  Without [meta.yml] it logs a warning and returns the empty
    dict.  With [meta.yml] it returns, unparsed, the generator of
    [yaml.load_all] over a file that the [with] block has closed: the
    first attempt to take a document from it raises [ValueError] (I/O
    operation on closed file), whatever the file holds. *)
Theorem C6_metadata_generator_on_closed_file
    (document : Type) (parse_documents : string -> list document)
    (s : state) :
  (isfile_in s (join (folder (self s)) DEFAULT_META_FNAME) = false ->
   fst (load_metadata s) = Ok (MetadataDict []) /\
   log (snd (load_metadata s)) =
     (log s ++ [NoMetadataFile (name (self s)) "meta.yml"])%list)
  /\
  (isfile_in s (join (folder (self s)) DEFAULT_META_FNAME) = true ->
   exists stream,
     fst (load_metadata s) = Ok (MetadataGenerator stream) /\
     fname stream = join (folder (self s)) "meta.yml" /\
     existsb (Nat.eqb (fileno stream)) (open_files (snd (load_metadata s)))
       = false /\
     fst (next_document parse_documents (MetadataGenerator stream)
            (snd (load_metadata s)))
       = Raise (ValueError ClosedFile)).
Proof.
  split; intros H.
  - rewrite (load_metadata_absent s H). split; reflexivity.
  - rewrite (load_metadata_present s H). eexists. split; [reflexivity |].
    split; [reflexivity |]. cbn [snd fst open_files fileno].
    split; [apply closed_after_filter |].
    unfold next_document, bind, read. cbn [fileno open_files].
    rewrite closed_after_filter. reflexivity.
Qed.

Lemma C6_metadata_generator_witness :
  exists stream,
    fst (load_metadata stray_file_state) = Ok (MetadataGenerator stream) /\
    fname stream = "/col/bach_bwv846/meta.yml" /\
    fst (next_document (fun data => [data]) (MetadataGenerator stream)
           (snd (load_metadata stray_file_state)))
      = Raise (ValueError ClosedFile).
Proof.
  destruct (C6_metadata_generator_on_closed_file string (fun data => [data])
              stray_file_state) as [_ H].
  destruct (H eq_refl) as [stream [A [B [_ C]]]].
  exists stream. repeat split; assumption.
Defined.

(** ** Creating the directories of a piece *)

Lemma is_file_false_not_dir (o : option node) :
  is_file o = false -> is_dir o = false -> o = None.
Proof. destruct o as [[|]|]; cbn; congruence. Qed.

Lemma is_dir_inv (o : option node) :
  is_dir o = true -> exists es, o = Some (Dir es).
Proof. destruct o as [[|es]|]; try discriminate. intros _. now exists es. Qed.

Lemma lookup_child (D : list string) (n : string) (t : node) (es : Dict.t node) :
  lookup D t = Some (Dir es) -> lookup (D ++ [n]) t = Dict.get n es.
Proof.
  intros H. rewrite lookup_app, H, lookup_cons.
  now destruct (Dict.get n es).
Qed.

(** [os.mkdir] of a missing child of an existing directory. *)
Lemma mkdir_child (dir n : string) (s : state) (es : Dict.t node) :
  plain n = true ->
  lookup (resolve dir) (disk s) = Some (Dir es) ->
  Dict.get n es = None ->
  os.mkdir (join dir n) s =
    (Ok tt,
     with_disk (put (resolve dir) (Dir (Dict.set n (Dir []) es)) (disk s)) s).
Proof.
  intros Pn HD Hn. unfold os.mkdir. rewrite (resolve_join _ _ Pn).
  rewrite (lookup_child _ _ _ _ HD), Hn, removelast_last, HD.
  now rewrite (put_app _ _ _ _ _ HD).
Qed.

(** A new empty directory changes no answer of [os.path.isfile]. *)
Lemma is_file_new_dir (D q : list string) (n : string) (t : node)
    (es : Dict.t node) :
  lookup D t = Some (Dir es) -> Dict.get n es = None ->
  is_file (lookup q (put D (Dir (Dict.set n (Dir []) es)) t))
    = is_file (lookup q t).
Proof.
  intros HD Hn. destruct (is_prefix D q) eqn:P.
  - apply is_prefix_spec in P. destruct P as [r ->].
    rewrite (lookup_put_below _ _ _ _ _ HD), lookup_app, HD.
    destruct r as [|m r]; [reflexivity |]. rewrite !lookup_cons.
    destruct (String.eqb_spec m n) as [->|N].
    + rewrite get_set_same, Hn. destruct r; reflexivity.
    + now rewrite get_set_other.
  - now apply (is_file_put_off _ _ _ _ _ HD).
Qed.

(** It leaves its siblings as they are. *)
Lemma lookup_sibling (D : list string) (n m : string) (v t : node)
    (es : Dict.t node) :
  lookup D t = Some (Dir es) -> m <> n ->
  lookup (D ++ [m]) (put D (Dir (Dict.set n v es)) t) = lookup (D ++ [m]) t.
Proof.
  intros HD N. rewrite (lookup_put_below _ _ _ _ _ HD), lookup_app, HD.
  rewrite !lookup_cons. now rewrite get_set_other.
Qed.

Lemma plain_performances : plain "performances" = true.
Proof. reflexivity. Qed.

Lemma plain_scores : plain "scores" = true.
Proof. reflexivity. Qed.

(** [_ensure_piece_structure] in an existing piece folder in which
    neither [performances] nor [scores] is a regular file: it returns,
    both directories exist afterwards, and no regular file has appeared
    or gone. *)
Lemma _ensure_piece_structure_ok (s : state) :
  performance_dir (self s) = join (folder (self s)) "performances" ->
  score_dir (self s) = join (folder (self s)) "scores" ->
  is_dir (lookup (resolve (folder (self s))) (disk s)) = true ->
  is_file (lookup (resolve (performance_dir (self s))) (disk s)) = false ->
  is_file (lookup (resolve (score_dir (self s))) (disk s)) = false ->
  exists d,
    _ensure_piece_structure s = (Ok tt, with_disk d s) /\
    (forall q, is_file (lookup q d) = is_file (lookup q (disk s))) /\
    is_dir (lookup (resolve (performance_dir (self s))) d) = true /\
    is_dir (lookup (resolve (score_dir (self s))) d) = true.
Proof.
  intros Epd Esd HF HP HS. unfold _ensure_piece_structure. step.
  rewrite Epd, Esd in *.
  rewrite (resolve_join _ _ plain_performances) in *.
  rewrite (resolve_join _ _ plain_scores) in *.
  set (F := resolve (folder (self s))) in *.
  destruct (is_dir_inv _ HF) as [es HD].
  assert (first_done : exists d es',
    (when (negb (is_dir (lookup (F ++ ["performances"]) (disk s))))
     then os.mkdir (join (folder (self s)) "performances")) s
      = (Ok tt, with_disk d s) /\
    lookup F d = Some (Dir es') /\
    (forall q, is_file (lookup q d) = is_file (lookup q (disk s))) /\
    is_dir (lookup (F ++ ["performances"]) d) = true /\
    lookup (F ++ ["scores"]) d = lookup (F ++ ["scores"]) (disk s)).
  { destruct (is_dir (lookup (F ++ ["performances"]) (disk s))) eqn:DP;
      cbn [negb].
    - exists (disk s), es. destruct s; cbn. auto.
    - pose proof (is_file_false_not_dir _ HP DP) as N.
      rewrite (lookup_child _ _ _ _ HD) in N.
      exists (put F (Dir (Dict.set "performances" (Dir []) es)) (disk s)).
      exists (Dict.set "performances" (Dir []) es).
      split; [apply (mkdir_child _ _ _ _ plain_performances HD N) |].
      split; [apply (lookup_put_same _ _ _ _ HD) |].
      split; [intros q; apply (is_file_new_dir _ _ _ _ _ HD N) |].
      split.
      + rewrite (lookup_put_below _ _ _ _ _ HD), lookup_cons, get_set_same.
        reflexivity.
      + apply (lookup_sibling _ _ _ _ _ _ HD). discriminate. }
  destruct first_done as [d [es' [E1 [HD' [Hfile [Hpd Hsd]]]]]].
  rewrite (bind_ok _ _ _ _ _ E1). step. cbn [disk with_disk self].
  rewrite Esd, (resolve_join _ _ plain_scores). fold F. rewrite Hsd.
  destruct (is_dir (lookup (F ++ ["scores"]) (disk s))) eqn:DS; cbn [negb].
  - exists d. split; [reflexivity |]. split; [exact Hfile |].
    split; [exact Hpd | now rewrite Hsd].
  - pose proof (is_file_false_not_dir _ HS DS) as N.
    rewrite <- Hsd, (lookup_child _ _ _ _ HD') in N.
    exists (put F (Dir (Dict.set "scores" (Dir []) es')) d).
    split.
    + rewrite (mkdir_child (folder (self s)) "scores" (with_disk d s) es'
                 plain_scores HD' N).
      reflexivity.
    + split; [| split].
      * intros q. rewrite (is_file_new_dir _ _ _ _ _ HD' N). apply Hfile.
      * rewrite (lookup_sibling _ _ _ _ _ _ HD') by discriminate.
        exact Hpd.
      * rewrite (lookup_put_below _ _ _ _ _ HD'), lookup_cons, get_set_same.
        reflexivity.
Qed.

(** Loading the metadata returns, and touches neither the disk nor the
    attributes of the piece. *)
Lemma load_metadata_frame (s : state) :
  exists md s',
    load_metadata s = (Ok md, s') /\ disk s' = disk s /\ self s' = self s.
Proof.
  destruct (isfile_in s (join (folder (self s)) DEFAULT_META_FNAME)) eqn:H.
  - rewrite (load_metadata_present s H). eexists _, _.
    split; [reflexivity | split; reflexivity].
  - rewrite (load_metadata_absent s H). eexists _, _.
    split; [reflexivity | split; reflexivity].
Qed.

(** C4 (amended). When construction is given an [authority_format] of
    [AVAILABLE_AUTHORITIES] that is not a key of the discovered
    encodings, it fails with [SheetManagerDBError] whose message names
    the piece, the collection root, the requested format and the paths
    of the encoding files found ([self.encodings.values()]), not their
    kinds. *)
Theorem C4_missing_authority_lists_paths (nm root fmt : string) (s0 : state) :
  is_dir (lookup (resolve root) (disk s0)) = true ->
  is_dir (lookup (resolve (join root nm)) (disk s0)) = true ->
  in_list fmt AVAILABLE_AUTHORITIES = true ->
  is_file (lookup (resolve (join (join root nm) "performances")) (disk s0))
    = false ->
  is_file (lookup (resolve (join (join root nm) "scores")) (disk s0))
    = false ->
  Dict.contains fmt (discovered (disk s0) root nm) = false ->
  fst (__init__ nm root fmt s0) =
    Raise (SheetManagerDBError
             (NoAuthorityEncoding nm root fmt
                (Dict.values (discovered (disk s0) root nm)))).
Proof.
  intros HR HF Hfmt HP HS HC. unfold __init__. step.
  rewrite HR. cbn [negb]. step. rewrite HF. cbn [negb]. step.
  rewrite Hfmt. cbn [negb]. step. fold (located nm root s0).
  destruct (_ensure_piece_structure_ok (located nm root s0)
              eq_refl eq_refl HF HP HS) as [d [E [Hfile _]]].
  rewrite (bind_ok _ _ _ _ _ E).
  destruct (load_metadata_frame (with_disk d (located nm root s0)))
    as [md [s' [L [Hd Hs]]]].
  rewrite (bind_ok _ _ _ _ _ L). step.
  match goal with |- context [bind collect_encodings ?k ?st] =>
    rewrite (bind_ok _ k st _ _ (collect_encodings_scan st));
    assert (Sc : scan st = discovered (disk s0) root nm)
  end.
  { apply scan_ext.
    - cbn. now rewrite Hs.
    - cbn. now rewrite Hs.
    - intros e _. unfold isfile_in. cbn. rewrite Hd. cbn. apply Hfile. }
  rewrite Sc. step. cbn [self with_self encodings set_encodings].
  rewrite HC. cbn [negb]. step. cbn. now rewrite Hs.
Qed.

Lemma C4_missing_authority_witness :
  fst (__init__ bach "/col" "mxml" (boot col_disk)) =
    Raise (SheetManagerDBError
             (NoAuthorityEncoding bach "/col" "mxml"
                ["/col/bach_bwv846/bach_bwv846.ly";
                 "/col/bach_bwv846/bach_bwv846.mid"])).
Proof.
  apply (C4_missing_authority_lists_paths bach "/col" "mxml" (boot col_disk));
    reflexivity.
Defined.

(** C4 as stated fails on the scenario of the specification: the
    message lists the two paths, not the kinds [ly] and [midi]. *)
Lemma C4_counterexample :
  Dict.keys (discovered col_disk "/col" bach) = ["ly"; "midi"] /\
  fst (__init__ bach "/col" "mxml" (boot col_disk)) <>
    Raise (SheetManagerDBError
             (NoAuthorityEncoding bach "/col" "mxml" ["ly"; "midi"])).
Proof. split; [reflexivity |]. vm_compute. discriminate. Qed.

(** ** Changes inside the performances directory *)

Lemma is_prefix_app_common (F a b : list string) :
  is_prefix (F ++ a) (F ++ b) = is_prefix a b.
Proof.
  induction F as [|c F IH]; [reflexivity |].
  cbn. now rewrite String.eqb_refl, IH.
Qed.

Lemma is_file_sibling_put (F : list string) (d m : string) (t v : node)
    (es : Dict.t node) :
  lookup (F ++ [d]) t = Some (Dir es) ->
  is_file (lookup (F ++ [m]) (put (F ++ [d]) v t)) = is_file (lookup (F ++ [m]) t)
  \/ d = m.
Proof.
  intros H. destruct (String.eqb_spec d m) as [E|N]; [now right | left].
  apply (is_file_put_off _ _ _ _ _ H).
  rewrite is_prefix_app_common. cbn.
  apply String.eqb_neq in N. now rewrite N.
Qed.

(** Readiness depends on the layout of the piece, on its authority
    format and on the disk. *)
Lemma ready_same (s s' : state) :
  name (self s') = name (self s) -> folder (self s') = folder (self s) ->
  performance_dir (self s') = performance_dir (self s) ->
  score_dir (self s') = score_dir (self s) ->
  authority_format (self s') = authority_format (self s) ->
  disk s' = disk s ->
  ready s -> ready s'.
Proof.
  intros N F P S A D [[W1 W2 W3 W4] R1 R2 R3].
  assert (Sc : scan s' = scan s).
  { apply scan_ext; [assumption | assumption |].
    intros e _. unfold isfile_in. now rewrite D. }
  split; [split | | |]; rewrite ?N, ?F, ?P, ?S, ?A, ?D, ?Sc; assumption.
Qed.

Lemma ready_refreshed (s : state) : ready s -> ready (refreshed s).
Proof. apply ready_same; reflexivity. Qed.

(** A ready piece stays ready when the content of its performances
    directory is replaced. *)
Lemma ready_put_performances (s : state) (es es' : Dict.t node) :
  ready s ->
  lookup (resolve (performance_dir (self s))) (disk s) = Some (Dir es) ->
  ready (with_disk
           (put (resolve (performance_dir (self s))) (Dir es') (disk s)) s).
Proof.
  intros [[W1 W2 W3 W4] R1 R2 R3] HD.
  assert (Sc : scan (with_disk
                 (put (resolve (performance_dir (self s))) (Dir es') (disk s))
                 s) = scan s).
  { apply scan_ext; [reflexivity | reflexivity |].
    intros e He. unfold isfile_in. cbn [self disk with_disk].
    rewrite W2 in HD |- *.
    rewrite (resolve_join _ _ plain_performances) in HD |- *.
    rewrite (resolve_join _ _ (plain_append _ _ W1 He)).
    destruct (is_file_sibling_put _ _ (name (self s) ++ e) _ (Dir es') _ HD)
      as [E|E]; [exact E |].
    rewrite <- E, (lookup_put_same _ _ _ _ HD), HD. reflexivity. }
  split; [split; assumption | | |]; cbn [self disk with_disk].
  - now rewrite (lookup_put_same _ _ _ _ HD).
  - rewrite W2, W3 in *.
    rewrite (resolve_join _ _ plain_performances) in *.
    rewrite (resolve_join _ _ plain_scores) in *.
    rewrite (is_dir_put_off _ _ _ _ _ HD); [exact R2 |].
    now rewrite is_prefix_app_common.
  - rewrite Sc. exact R3.
Qed.

Lemma listing_dir (d : node) (dir : string) (es : Dict.t node) :
  lookup (resolve dir) d = Some (Dir es) -> listing d dir = Dict.keys es.
Proof. intros H. unfold listing. now rewrite H. Qed.

Lemma index_get (d : node) (dir n : string) :
  Dict.get n (index d dir) =
    if in_list n (listing d dir) then Some (join dir n) else None.
Proof. apply dict_comprehension_get. Qed.

Lemma in_list_keys {V} (n : string) (es : Dict.t V) :
  in_list n (Dict.keys es) = Dict.contains n es.
Proof.
  unfold Dict.contains. destruct (Dict.get n es) as [v|] eqn:G.
  - apply in_list_In. eapply get_In_keys; eassumption.
  - destruct (in_list n (Dict.keys es)) eqn:I; [| reflexivity].
    apply in_list_In in I. now apply get_None_keys in G.
Qed.



(** [remove_performance] of a name that is not on the disk: a warning,
    and the index rebuilt. *)
Lemma remove_performance_unlisted (s : state) (x : string) (es : Dict.t node) :
  ready s ->
  lookup (resolve (performance_dir (self s))) (disk s) = Some (Dir es) ->
  Dict.get x es = None ->
  remove_performance x s =
    (Ok tt,
     snd (logging.warn (RemoveMissingPerformance (name (self s)) x)
            (refreshed s))).
Proof.
  intros R HD Hx. unfold remove_performance.
  rewrite (bind_ok _ _ _ _ _ (update_ready s R)). step.
  cbn [self refreshed with_self performances set_scores set_performances].
  unfold Dict.contains.
  rewrite index_get, (listing_dir _ _ _ HD), in_list_keys.
  unfold Dict.contains. rewrite Hx. cbn [negb]. step. reflexivity.
Qed.

(** ** Clearing the performances *)






(** ** Copying into a performance directory *)

Lemma same_path_eq (p q : list string) : shutil.same_path p q = true -> p = q.
Proof.
  revert q. induction p as [|c p IH]; intros [|d q]; cbn; try discriminate.
  - reflexivity.
  - rewrite andb_true_iff, String.eqb_eq. intros [-> H]. now rewrite (IH _ H).
Qed.

Lemma lookup_below_missing (p q : list string) (t : node) :
  lookup p t = None -> is_prefix p q = true -> lookup q t = None.
Proof.
  intros H P. apply is_prefix_spec in P. destruct P as [r ->].
  now rewrite lookup_app, H.
Qed.

(** A regular file outside the entry [n] of the directory at [D] is
    untouched when that entry alone is changed. *)
Lemma lookup_file_outside (D q : list string) (n data : string) (t : node)
    (es es' : Dict.t node) :
  lookup D t = Some (Dir es) ->
  (forall m, m <> n -> Dict.get m es' = Dict.get m es) ->
  lookup q t = Some (File data) ->
  is_prefix (D ++ [n]) q = false ->
  lookup q (put D (Dir es') t) = Some (File data).
Proof.
  intros HD Hes Hq Hout. destruct (is_prefix D q) eqn:P.
  - apply is_prefix_spec in P. destruct P as [r ->].
    rewrite (lookup_put_below _ _ _ _ _ HD).
    rewrite lookup_app, HD in Hq.
    destruct r as [|m r]; [discriminate |].
    rewrite lookup_cons in Hq |- *.
    assert (N : m <> n).
    { intros ->. rewrite is_prefix_app_common in Hout. cbn in Hout.
      now rewrite String.eqb_refl in Hout. }
    now rewrite (Hes m N).
  - destruct (is_prefix q D) eqn:Q.
    + destruct (lookup_put_above _ _ (Dir es') _ _ HD P Q) as [_ B].
      rewrite Hq in B. discriminate.
    + now rewrite (lookup_put_diverge _ _ _ _ _ HD P Q).
Qed.

(** [shutil.copyfile] of a regular file into an existing directory,
    under a plain name that does not name a subdirectory there. *)
Lemma copyfile_into (src dir f data : string) (s : state) (fs : Dict.t node) :
  plain f = true ->
  lookup (resolve src) (disk s) = Some (File data) ->
  lookup (resolve dir) (disk s) = Some (Dir fs) ->
  is_prefix (resolve dir) (resolve src) = false ->
  is_dir (Dict.get f fs) = false ->
  shutil.copyfile src (join dir f) s =
    (Ok tt,
     with_disk (put (resolve dir) (Dir (Dict.set f (File data) fs)) (disk s)) s).
Proof.
  intros Pf Hsrc Hdir Hout Hf. unfold shutil.copyfile.
  rewrite Hsrc, (resolve_join _ _ Pf).
  destruct (shutil.same_path (resolve src) (resolve dir ++ [f])) eqn:E.
  { apply same_path_eq in E. rewrite E, is_prefix_app in Hout. discriminate. }
  rewrite (lookup_child _ _ _ _ Hdir), removelast_last, Hdir.
  rewrite (put_app _ _ _ _ _ Hdir), put_last.
  destruct (Dict.get f fs) as [[|]|]; try reflexivity. discriminate.
Qed.

Lemma put_child (D : list string) (n : string) (v old t : node)
    (es : Dict.t node) :
  lookup D t = Some (Dir es) -> Dict.get n es = Some old ->
  put (D ++ [n]) v t = put D (Dir (Dict.set n v es)) t.
Proof. intros HD _. now rewrite (put_app _ _ _ _ _ HD), put_last. Qed.

Lemma append_injective (a b c : string) : a ++ b = a ++ c -> b = c.
Proof.
  induction a as [|x a IH]; [now rewrite !append_nil_l |].
  rewrite !append_cons. intros [= H]. exact (IH H).
Qed.

(** The disk of [s] with the entry [nm] of the performances directory,
    whose entries are [es], set to [X]. *)
Definition with_performance (s : state) (es : Dict.t node) (nm : string)
    (X : node) : node :=
  put (resolve (performance_dir (self s))) (Dir (Dict.set nm X es)) (disk s).

Section PerformanceDirectory.

Variables (s : state) (es : Dict.t node) (nm : string).
Hypothesis R : ready s.
Hypothesis Pn : plain nm = true.
Hypothesis HD :
  lookup (resolve (performance_dir (self s))) (disk s) = Some (Dir es).

Lemma with_performance_ready (X : node) :
  ready (with_disk (with_performance s es nm X) s).
Proof. apply (ready_put_performances s es); assumption. Qed.

Lemma with_performance_entries (X : node) :
  lookup (resolve (performance_dir (self s))) (with_performance s es nm X)
    = Some (Dir (Dict.set nm X es)).
Proof. apply (lookup_put_same _ _ _ _ HD). Qed.

Lemma with_performance_lookup (X : node) :
  lookup (resolve (join (performance_dir (self s)) nm))
    (with_performance s es nm X) = Some X.
Proof.
  rewrite (resolve_join _ _ Pn).
  rewrite (lookup_child _ _ _ _ (with_performance_entries X)).
  apply get_set_same.
Qed.

Lemma with_performance_again (X Y : node) :
  put (resolve (join (performance_dir (self s)) nm)) Y
    (with_performance s es nm X) = with_performance s es nm Y.
Proof.
  rewrite (resolve_join _ _ Pn).
  rewrite (put_child _ _ _ X _ _ (with_performance_entries X)
             (get_set_same _ _ _)).
  unfold with_performance. now rewrite (put_put _ _ _ _ _ HD), set_set.
Qed.

Lemma with_performance_source (X : node) (src data : string) :
  lookup (resolve src) (disk s) = Some (File data) ->
  is_prefix (resolve (join (performance_dir (self s)) nm)) (resolve src)
    = false ->
  lookup (resolve src) (with_performance s es nm X) = Some (File data).
Proof.
  intros Hsrc Hout. rewrite (resolve_join _ _ Pn) in Hout.
  apply (lookup_file_outside _ _ nm _ _ es); try assumption.
  intros m N. now apply get_set_other.
Qed.

(** One copy into the directory of the performance [nm]. *)
Lemma copy_into_performance (fs : Dict.t node) (src f data : string) :
  plain f = true ->
  lookup (resolve src) (disk s) = Some (File data) ->
  is_prefix (resolve (join (performance_dir (self s)) nm)) (resolve src)
    = false ->
  is_dir (Dict.get f fs) = false ->
  shutil.copyfile src (join (join (performance_dir (self s)) nm) f)
    (with_disk (with_performance s es nm (Dir fs)) s)
  = (Ok tt,
     with_disk (with_performance s es nm (Dir (Dict.set f (File data) fs))) s).
Proof.
  intros Pf Hsrc Hout Hf.
  rewrite (copyfile_into src _ f data _ fs Pf); cbn [disk with_disk].
  - now rewrite with_performance_again.
  - now apply with_performance_source.
  - apply with_performance_lookup.
  - exact Hout.
  - exact Hf.
Qed.

End PerformanceDirectory.

(** ** Adding a performance *)

Lemma source_inv (d : node) (path data : string) :
  source d path = Some data -> lookup (resolve path) d = Some (File data).
Proof.
  unfold source. destruct (lookup (resolve path) d) as [[x|]|];
    try discriminate.
  now intros [= ->].
Qed.

Section AddPerformance.

Variable Performance : Type.
Variable Performance_init : string -> string -> node -> result Performance.

(** The part of [add_performance] that follows the check of the name;
    the source marks it as the future [build_performance]. *)
Definition build_performance (nm audio_file : string)
    (midi_file : option string) : M unit :=
  pd <- attr performance_dir ;;
  let new_performance_dir := join pd nm in
  os.mkdir new_performance_dir ;;
  let audio_fmt := snd (splitext audio_file) in
  let perf_audio_filename := join new_performance_dir (nm ++ audio_fmt) in
  shutil.copyfile audio_file perf_audio_filename ;;
  (when (truthy midi_file) then
     (let midi := match midi_file with Some m => m | None => "" end in
      let midi_fmt := snd (splitext midi) in
      let perf_midi_filename := join new_performance_dir (nm ++ midi_fmt) in
      shutil.copyfile midi perf_midi_filename)) ;;
  update ;;
  _ <- load_performance Performance_init nm ;;
  ret tt.

(** [load_performance] of a name that is on the disk of a ready piece:
    the index is rebuilt and the collaborator decides. *)
Lemma load_performance_listed (s : state) (es : Dict.t node) (nm : string)
    (v : node) :
  ready s ->
  lookup (resolve (performance_dir (self s))) (disk s) = Some (Dir es) ->
  Dict.get nm es = Some v ->
  load_performance Performance_init nm s =
    (Performance_init (join (performance_dir (self s)) nm) (name (self s))
       (disk s),
     refreshed s).
Proof.
  intros R HD Hn. unfold load_performance.
  rewrite (bind_ok _ _ _ _ _ (update_ready s R)). step.
  cbn [self refreshed with_self performances set_scores set_performances].
  unfold Dict.contains, getitem.
  rewrite index_get, (listing_dir _ _ _ HD), in_list_keys.
  unfold Dict.contains. rewrite Hn. cbn [negb]. step.
  unfold bind, new_Performance, ret. cbn.
  now destruct (Performance_init _ _ _).
Qed.

(** Building the performance [nm], a name that is not on the disk, from
    sources that are regular files. *)
Lemma build_performance_fresh (s : state) (es : Dict.t node)
    (nm audio_file adata : string) (midi_file : option string) :
  ready s -> plain nm = true ->
  lookup (resolve (performance_dir (self s))) (disk s) = Some (Dir es) ->
  Dict.get nm es = None ->
  source (disk s) audio_file = Some adata ->
  (forall m, midi_file = Some m -> m <> "" /\ source (disk s) m <> None) ->
  build_performance nm audio_file midi_file s =
    (match Performance_init (join (performance_dir (self s)) nm)
             (name (self s))
             (with_performance s es nm
                (Dir (copied_files nm audio_file adata
                        (midi_source (disk s) midi_file)))) with
     | Ok _ => Ok tt
     | Raise e => Raise e
     end,
     refreshed (refreshed (with_disk
       (with_performance s es nm
          (Dir (copied_files nm audio_file adata
                  (midi_source (disk s) midi_file)))) s))).
Proof.
  intros R Pn HD Hn Ha Hm. apply source_inv in Ha.
  assert (Hmiss : lookup (resolve (join (performance_dir (self s)) nm))
                    (disk s) = None)
    by now rewrite (resolve_join _ _ Pn), (lookup_child _ _ _ _ HD).
  assert (Hout : forall src data,
            lookup (resolve src) (disk s) = Some (File data) ->
            is_prefix (resolve (join (performance_dir (self s)) nm))
              (resolve src) = false).
  { intros src data Hs.
    destruct (is_prefix _ (resolve src)) eqn:P; [| reflexivity].
    rewrite (lookup_below_missing _ _ _ Hmiss P) in Hs. discriminate. }
  unfold build_performance. step.
  erewrite bind_ok by (apply (mkdir_child _ _ _ es Pn HD Hn)).
  fold (with_performance s es nm (Dir [])).
  erewrite bind_ok
    by (apply (copy_into_performance s es nm Pn HD [] audio_file _ adata);
        [ apply plain_append; [exact Pn | apply splitext_no_sep]
        | exact Ha | exact (Hout _ _ Ha) | reflexivity ]).
  assert (built : exists files,
    files = copied_files nm audio_file adata (midi_source (disk s) midi_file)
    /\ (when (truthy midi_file) then
          (let midi := match midi_file with Some m => m | None => "" end in
           shutil.copyfile midi
             (join (join (performance_dir (self s)) nm)
                (nm ++ snd (splitext midi)))))
         (with_disk
            (with_performance s es nm
               (Dir (Dict.set (nm ++ snd (splitext audio_file)) (File adata) [])))
            s)
       = (Ok tt, with_disk (with_performance s es nm (Dir files)) s)).
  { eexists. split; [reflexivity |].
    destruct midi_file as [m|]; cbn [truthy midi_source]; [| reflexivity].
    destruct (Hm m eq_refl) as [Nm Sm].
    apply String.eqb_neq in Nm. rewrite Nm. cbn [negb].
    destruct (source (disk s) m) as [mdata|] eqn:E; [| congruence].
    apply source_inv in E. cbv zeta.
    rewrite (copy_into_performance s es nm Pn HD _ m _ mdata);
      [ reflexivity
      | apply plain_append; [exact Pn | apply splitext_no_sep]
      | exact E | exact (Hout _ _ E) | ].
    cbn [Dict.set Dict.get].
    destruct (String.eqb (nm ++ snd (splitext audio_file))
                (nm ++ snd (splitext m))); reflexivity. }
  destruct built as [files [-> B]].
  cbv zeta in B |- *. rewrite (bind_ok _ _ _ _ _ B).
  erewrite bind_ok
    by (apply update_ready; apply (with_performance_ready s es nm R HD)).
  unfold bind.
  erewrite (load_performance_listed _ (Dict.set nm _ es) nm);
    [ | apply ready_refreshed; apply (with_performance_ready s es nm R HD)
      | apply (with_performance_entries s es nm HD)
      | apply get_set_same ].
  cbn [self disk refreshed with_self with_disk performance_dir name
       set_scores set_performances set_authority set_authority_format
       set_encodings].
  now destruct (Performance_init _ _ _).
Qed.

End AddPerformance.

Lemma add_performance_unfold (Performance : Type)
    (Performance_init : string -> string -> node -> result Performance)
    (nm audio_file : string) (midi_file : option string) (overwrite : bool) :
  add_performance Performance_init nm audio_file midi_file overwrite =
    (perfs <- attr performances ;;
     (when (Dict.contains nm perfs) then
        (if overwrite then
           self_name <- attr name ;;
           logging.warning (PerformanceOverwritten self_name nm) ;;
           time.sleep 5 ;;
           remove_performance nm
         else
           self_name <- attr name ;;
           raise (SheetManagerDBError (PerformanceExists self_name nm)))) ;;
     build_performance Performance Performance_init nm audio_file midi_file).
Proof. reflexivity. Qed.

(** The files of a new performance, by cases: the audio copy alone; the
    audio copy and the MIDI copy when their extensions differ; the MIDI
    copy alone, under the common name, when the extensions are equal. *)
Lemma copied_files_cases (nm audio_file adata : string)
    (midi : option (string * string)) :
  match midi with
  | None =>
      copied_files nm audio_file adata midi
      = [(nm ++ snd (splitext audio_file), File adata)]
  | Some (m, mdata) =>
      if String.eqb (snd (splitext audio_file)) (snd (splitext m))
      then copied_files nm audio_file adata midi
           = [(nm ++ snd (splitext m), File mdata)]
      else copied_files nm audio_file adata midi
           = [(nm ++ snd (splitext audio_file), File adata);
              (nm ++ snd (splitext m), File mdata)]
  end.
Proof.
  destruct midi as [[m mdata]|]; [| reflexivity].
  unfold copied_files. cbn [Dict.set].
  destruct (String.eqb_spec (snd (splitext audio_file)) (snd (splitext m)))
    as [E|N].
  - rewrite E, String.eqb_refl. reflexivity.
  - destruct (String.eqb_spec (nm ++ snd (splitext audio_file))
                (nm ++ snd (splitext m))) as [E|_]; [| reflexivity].
    apply append_injective in E. contradiction.
Qed.

(** C7 (amended). For a ready Piece, a plain performance name that is
    neither in the index nor on the disk, and sources that are regular
    files, [add_performance(name, audio, midi)] followed by
    [load_performance(name)] succeeds whenever the Performance
    collaborator accepts the new directory, and the directory
    [performance_dir/name] then holds exactly the copies named [name]
    plus the extension of their source: the audio copy alone when no
    MIDI file is given; the audio copy and the MIDI copy when the two
    extensions differ; and, when the two extensions are equal, the one
    file of that name with the content of the MIDI source. *)
Theorem C7_performance_round_trip
    (Performance : Type)
    (Performance_init : string -> string -> node -> result Performance)
    (s : state) (nm audio_file adata : string) (midi_file : option string)
    (overwrite : bool) :
  ready s ->
  plain nm = true ->
  Dict.contains nm (performances (self s)) = false ->
  lookup (resolve (join (performance_dir (self s)) nm)) (disk s) = None ->
  source (disk s) audio_file = Some adata ->
  (forall m, midi_file = Some m -> m <> "" /\ source (disk s) m <> None) ->
  (forall d,
     lookup (resolve (join (performance_dir (self s)) nm)) d
       = Some (Dir (copied_files nm audio_file adata
                      (midi_source (disk s) midi_file))) ->
     exists h,
       Performance_init (join (performance_dir (self s)) nm) (name (self s)) d
         = Ok h) ->
  exists s1 h s2,
    add_performance Performance_init nm audio_file midi_file overwrite s
      = (Ok tt, s1) /\
    load_performance Performance_init nm s1 = (Ok h, s2) /\
    lookup (resolve (join (performance_dir (self s)) nm)) (disk s2)
      = Some (Dir (copied_files nm audio_file adata
                     (midi_source (disk s) midi_file))) /\
    match midi_source (disk s) midi_file with
    | None =>
        copied_files nm audio_file adata (midi_source (disk s) midi_file)
        = [(nm ++ snd (splitext audio_file), File adata)]
    | Some (m, mdata) =>
        if String.eqb (snd (splitext audio_file)) (snd (splitext m))
        then copied_files nm audio_file adata (midi_source (disk s) midi_file)
             = [(nm ++ snd (splitext m), File mdata)]
        else copied_files nm audio_file adata (midi_source (disk s) midi_file)
             = [(nm ++ snd (splitext audio_file), File adata);
                (nm ++ snd (splitext m), File mdata)]
    end.
Proof.
  intros R Pn Hfresh Hmiss Ha Hm Hacc.
  destruct (is_dir_inv _ (ready_performance_dir _ R)) as [es HD].
  assert (Hn : Dict.get nm es = None)
    by now rewrite (resolve_join _ _ Pn), (lookup_child _ _ _ _ HD) in Hmiss.
  set (files := copied_files nm audio_file adata
                  (midi_source (disk s) midi_file)) in *.
  set (d' := with_performance s es nm (Dir files)).
  assert (Hd' : lookup (resolve (join (performance_dir (self s)) nm)) d'
                = Some (Dir files))
    by apply (with_performance_lookup s es nm Pn HD).
  destruct (Hacc d' Hd') as [h Hh].
  exists (refreshed (refreshed (with_disk d' s))), h,
    (refreshed (refreshed (refreshed (with_disk d' s)))).
  split; [| split; [| split]].
  - rewrite add_performance_unfold. step. rewrite Hfresh. step.
    rewrite (build_performance_fresh _ Performance_init s es nm audio_file
               adata midi_file R Pn HD Hn Ha Hm).
    fold files. fold d'. now rewrite Hh.
  - rewrite (load_performance_listed _ Performance_init _
               (Dict.set nm (Dir files) es) nm (Dir files)).
    + cbn [self disk refreshed with_self with_disk performance_dir name
           set_scores set_performances set_authority set_authority_format
           set_encodings].
      fold d'. now rewrite Hh.
    + do 2 apply ready_refreshed.
      apply (with_performance_ready s es nm R HD).
    + apply (with_performance_entries s es nm HD).
    + apply get_set_same.
  - exact Hd'.
  - apply copied_files_cases.
Qed.

Lemma C7_performance_round_trip_witness :
  exists s1 h s2,
    add_performance accept_directory "take3" "/tmp/rec.wav"
      (Some "/tmp/rec.mid") false two_takes_state = (Ok tt, s1) /\
    load_performance accept_directory "take3" s1 = (Ok h, s2) /\
    lookup (resolve "/col/bach_bwv846/performances/take3") (disk s2)
      = Some (Dir [("take3.wav", File "wav-data");
                   ("take3.mid", File "mid-data")]).
Proof.
  destruct (C7_performance_round_trip string accept_directory two_takes_state
              "take3" "/tmp/rec.wav" "wav-data" (Some "/tmp/rec.mid") false)
    as [s1 [h [s2 [A [L [D _]]]]]].
  - split; [split |..]; reflexivity.
  - reflexivity.
  - reflexivity.
  - reflexivity.
  - reflexivity.
  - intros m [= <-]. split; [discriminate | vm_compute; discriminate].
  - intros d H. unfold accept_directory. rewrite H. now eexists.
  - exists s1, h, s2. split; [exact A |]. split; [exact L | exact D].
Defined.

(** C7 as stated fails when the two sources have the same extension,
    here none: both copies are named [take3], the MIDI copy replaces the
    audio copy, and the directory holds one file with the MIDI content
    and no copy of the audio file. *)
Lemma C7_counterexample :
  fst (add_performance accept_directory "take3" "/tmp/audio"
         (Some "/tmp/midi") false two_takes_state) = Ok tt /\
  fst (load_performance accept_directory "take3"
         (snd (add_performance accept_directory "take3" "/tmp/audio"
                 (Some "/tmp/midi") false two_takes_state)))
    = Ok "/col/bach_bwv846/performances/take3" /\
  source (disk two_takes_state) "/tmp/audio" = Some "raw-audio" /\
  lookup (resolve "/col/bach_bwv846/performances/take3")
    (disk (snd (load_performance accept_directory "take3"
                  (snd (add_performance accept_directory "take3" "/tmp/audio"
                          (Some "/tmp/midi") false two_takes_state)))))
    = Some (Dir [("take3", File "raw-midi")]).
Proof. vm_compute. repeat split. Qed.

(** ** Adding a performance under a name that exists *)






(** * Further properties of the methods *)

(** ** The constructor *)

(** X1. The constructor validates before it writes.  It raises
    [SheetManagerDBError] when the collection root is not a directory,
    then [SheetManagerDBError] when the piece folder is not a directory,
    then [ValueError] when the authority format is not supported; in
    all three cases the state is as before: no attribute has been
    stored, and neither the piece folder nor any of its subdirectories
    has been created. *)
Theorem X1_init_validates_first (nm root fmt : string) (s0 : state) :
  (is_dir (lookup (resolve root) (disk s0)) = false ->
   __init__ nm root fmt s0 =
     (Raise (SheetManagerDBError (CollectionRootMissing root)), s0))
  /\
  (is_dir (lookup (resolve root) (disk s0)) = true ->
   is_dir (lookup (resolve (join root nm)) (disk s0)) = false ->
   __init__ nm root fmt s0 =
     (Raise (SheetManagerDBError (PieceMissing nm root)), s0))
  /\
  (is_dir (lookup (resolve root) (disk s0)) = true ->
   is_dir (lookup (resolve (join root nm)) (disk s0)) = true ->
   in_list fmt AVAILABLE_AUTHORITIES = false ->
   __init__ nm root fmt s0 =
     (Raise (ValueError (FormatNotSupported fmt)), s0)).
Proof.
  split; [| split].
  - intros R. unfold __init__. step. rewrite R. reflexivity.
  - intros R F. unfold __init__. step. rewrite R. cbn [negb]. step.
    rewrite F. reflexivity.
  - intros R F A. unfold __init__. step. rewrite R. cbn [negb]. step.
    rewrite F. cbn [negb]. step. rewrite A. reflexivity.
Qed.

Lemma X1_init_validates_first_witness :
  __init__ bach "/nowhere" "ly" (boot col_disk) =
    (Raise (SheetManagerDBError (CollectionRootMissing "/nowhere")),
     boot col_disk)
  /\
  __init__ "chopin_op28" "/col" "ly" (boot col_disk) =
    (Raise (SheetManagerDBError (PieceMissing "chopin_op28" "/col")),
     boot col_disk)
  /\
  __init__ bach "/col" "abc" (boot col_disk) =
    (Raise (ValueError (FormatNotSupported "abc")), boot col_disk).
Proof.
  split; [| split].
  - apply (X1_init_validates_first bach "/nowhere" "ly" (boot col_disk)).
    reflexivity.
  - apply (X1_init_validates_first "chopin_op28" "/col" "ly" (boot col_disk));
      reflexivity.
  - apply (X1_init_validates_first bach "/col" "abc" (boot col_disk));
      reflexivity.
Defined.

(** ** The directories of the piece *)

Lemma is_file_not_dir (o : option node) : is_file o = true -> is_dir o = false.
Proof. destruct o as [[|]|]; cbn; congruence. Qed.

Lemma lookup_child_missing (D : list string) (n : string) (t : node) :
  is_dir (lookup D t) = false -> lookup (D ++ [n]) t = None.
Proof.
  intros H. rewrite lookup_app.
  destruct (lookup D t) as [[x|es]|]; try reflexivity. discriminate.
Qed.

(** The first half of [_ensure_piece_structure] in an existing piece
    folder where [performances] is not a regular file. *)
Lemma ensure_performances_stage (s : state) (es : Dict.t node) :
  lookup (resolve (folder (self s))) (disk s) = Some (Dir es) ->
  is_file (lookup (resolve (folder (self s)) ++ ["performances"]) (disk s))
    = false ->
  exists d es',
    (when (negb (is_dir (lookup (resolve (folder (self s)) ++ ["performances"])
                           (disk s))))
     then os.mkdir (join (folder (self s)) "performances")) s
      = (Ok tt, with_disk d s) /\
    lookup (resolve (folder (self s))) d = Some (Dir es') /\
    (forall q, is_file (lookup q d) = is_file (lookup q (disk s))) /\
    is_dir (lookup (resolve (folder (self s)) ++ ["performances"]) d) = true /\
    lookup (resolve (folder (self s)) ++ ["scores"]) d
      = lookup (resolve (folder (self s)) ++ ["scores"]) (disk s).
Proof.
  intros HD HP. set (F := resolve (folder (self s))) in *.
  destruct (is_dir (lookup (F ++ ["performances"]) (disk s))) eqn:DP;
    cbn [negb].
  - exists (disk s), es. destruct s; cbn. auto.
  - pose proof (is_file_false_not_dir _ HP DP) as N.
    rewrite (lookup_child _ _ _ _ HD) in N.
    exists (put F (Dir (Dict.set "performances" (Dir []) es)) (disk s)).
    exists (Dict.set "performances" (Dir []) es).
    split; [apply (mkdir_child _ _ _ _ plain_performances HD N) |].
    split; [apply (lookup_put_same _ _ _ _ HD) |].
    split; [intros q; apply (is_file_new_dir _ _ _ _ _ HD N) |].
    split.
    + rewrite (lookup_put_below _ _ _ _ _ HD), lookup_cons, get_set_same.
      reflexivity.
    + apply (lookup_sibling _ _ _ _ _ _ HD). discriminate.
Qed.



(** A regular file in the place of one of the two directories. *)
Lemma _ensure_piece_structure_blocked (s : state) :
  performance_dir (self s) = join (folder (self s)) "performances" ->
  score_dir (self s) = join (folder (self s)) "scores" ->
  (is_file (lookup (resolve (performance_dir (self s))) (disk s)) = true ->
   _ensure_piece_structure s =
     (Raise (OSError FileExistsError (performance_dir (self s))), s))
  /\
  (is_dir (lookup (resolve (folder (self s))) (disk s)) = true ->
   is_file (lookup (resolve (performance_dir (self s))) (disk s)) = false ->
   is_file (lookup (resolve (score_dir (self s))) (disk s)) = true ->
   exists d,
     _ensure_piece_structure s =
       (Raise (OSError FileExistsError (score_dir (self s))), with_disk d s) /\
     is_dir (lookup (resolve (performance_dir (self s))) d) = true /\
     (forall q, is_file (lookup q d) = is_file (lookup q (disk s)))).
Proof.
  intros Epd Esd. split.
  - intros HP. unfold _ensure_piece_structure. step.
    rewrite (is_file_not_dir _ HP). cbn [negb].
    erewrite bind_raise; [reflexivity |]. unfold os.mkdir.
    destruct (lookup (resolve (performance_dir (self s))) (disk s))
      as [[x|e]|]; try discriminate. reflexivity.
  - intros HF HP HS. unfold _ensure_piece_structure. step.
    rewrite Epd, Esd in *.
    rewrite (resolve_join _ _ plain_performances) in *.
    rewrite (resolve_join _ _ plain_scores) in *.
    destruct (is_dir_inv _ HF) as [es HD].
    destruct (ensure_performances_stage s es HD HP)
      as [d [es' [E1 [HD' [Hfile [Hpd Hsd]]]]]].
    rewrite (bind_ok _ _ _ _ _ E1). step. cbn [disk with_disk self].
    rewrite Esd, (resolve_join _ _ plain_scores), Hsd.
    rewrite (is_file_not_dir _ HS). cbn [negb].
    exists d. split; [| split; [exact Hpd | exact Hfile]].
    unfold os.mkdir. cbn [disk with_disk].
    rewrite (resolve_join _ _ plain_scores), Hsd.
    destruct (lookup (resolve (folder (self s)) ++ ["scores"]) (disk s))
      as [[x|e]|]; try discriminate. reflexivity.
Qed.

(** X4. [_ensure_piece_structure] does not replace a regular file.
    When [performances] is a regular file it raises [FileExistsError]
    and changes nothing.  When [scores] is a regular file (in an
    existing piece folder where [performances] is not) it raises
    [FileExistsError] for [scores] after [performances] has been
    ensured: the directory [performances] exists afterwards. *)
Theorem X4_ensure_piece_structure_blocked (s : state) :
  performance_dir (self s) = join (folder (self s)) "performances" ->
  score_dir (self s) = join (folder (self s)) "scores" ->
  (is_file (lookup (resolve (performance_dir (self s))) (disk s)) = true ->
   _ensure_piece_structure s =
     (Raise (OSError FileExistsError (performance_dir (self s))), s))
  /\
  (is_dir (lookup (resolve (folder (self s))) (disk s)) = true ->
   is_file (lookup (resolve (performance_dir (self s))) (disk s)) = false ->
   is_file (lookup (resolve (score_dir (self s))) (disk s)) = true ->
   exists d,
     _ensure_piece_structure s =
       (Raise (OSError FileExistsError (score_dir (self s))), with_disk d s) /\
     is_dir (lookup (resolve (performance_dir (self s))) d) = true /\
     (forall q, is_file (lookup q d) = is_file (lookup q (disk s)))).
Proof. exact (_ensure_piece_structure_blocked s). Qed.

Lemma X4_ensure_piece_structure_blocked_witness :
  _ensure_piece_structure (located bach "/col" (boot col_disk_performances_file))
    = (Raise (OSError FileExistsError "/col/bach_bwv846/performances"),
       located bach "/col" (boot col_disk_performances_file))
  /\
  exists d,
    _ensure_piece_structure (located bach "/col" (boot col_disk_scores_file))
      = (Raise (OSError FileExistsError "/col/bach_bwv846/scores"),
         with_disk d (located bach "/col" (boot col_disk_scores_file))) /\
    is_dir (lookup (resolve "/col/bach_bwv846/performances") d) = true.
Proof.
  split.
  - apply (X4_ensure_piece_structure_blocked
             (located bach "/col" (boot col_disk_performances_file)));
      reflexivity.
  - destruct (X4_ensure_piece_structure_blocked
                (located bach "/col" (boot col_disk_scores_file))
                eq_refl eq_refl) as [_ H].
    destruct (H eq_refl eq_refl eq_refl) as [d [E [P _]]].
    exists d. split; [exact E | exact P].
Defined.

(** ** What a constructed piece looks like *)

Arguments scan : simpl never.
Arguments index : simpl never.
Arguments listing : simpl never.

Lemma init_post (nm root fmt : string) (s0 s : state) :
  __init__ nm root fmt s0 = (Ok tt, s) ->
  (name (self s) = nm /\
   folder (self s) = join root nm /\
   collection_root (self s) = root /\
   performance_dir (self s) = join (join root nm) "performances" /\
   score_dir (self s) = join (join root nm) "scores") /\
  (authority_format (self s) = fmt /\
   in_list fmt AVAILABLE_AUTHORITIES = true /\
   encodings (self s) = scan s /\
   Dict.get fmt (scan s) = Some (authority (self s))) /\
  (is_dir (lookup (resolve (performance_dir (self s))) (disk s)) = true /\
   is_dir (lookup (resolve (score_dir (self s))) (disk s)) = true /\
   performances (self s) = index (disk s) (performance_dir (self s)) /\
   scores (self s) = index (disk s) (score_dir (self s))) /\
  (forall q, is_file (lookup q (disk s)) = is_file (lookup q (disk s0))).
Proof.
  unfold __init__. step.
  destruct (is_dir (lookup (resolve root) (disk s0))); cbn [negb];
    [| rewrite bind_raise_now; discriminate].
  step.
  destruct (is_dir (lookup (resolve (join root nm)) (disk s0))) eqn:HF;
    cbn [negb]; [| rewrite bind_raise_now; discriminate].
  step.
  destruct (in_list fmt AVAILABLE_AUTHORITIES) eqn:Hfmt; cbn [negb];
    [| rewrite bind_raise_now; discriminate].
  step. fold (located nm root s0).
  destruct (_ensure_piece_structure_blocked (located nm root s0)
              eq_refl eq_refl) as [B1 B2].
  destruct (is_file (lookup (resolve (performance_dir
              (self (located nm root s0)))) (disk (located nm root s0))))
    eqn:HP.
  { rewrite (bind_raise _ _ _ _ _ (B1 eq_refl)). discriminate. }
  destruct (is_file (lookup (resolve (score_dir
              (self (located nm root s0)))) (disk (located nm root s0))))
    eqn:HS.
  { destruct (B2 HF eq_refl eq_refl) as [d [E _]].
    rewrite (bind_raise _ _ _ _ _ E). discriminate. }
  destruct (_ensure_piece_structure_ok (located nm root s0)
              eq_refl eq_refl HF HP HS) as [d [E [Hfile [Dp Ds]]]].
  rewrite (bind_ok _ _ _ _ _ E).
  destruct (load_metadata_frame (with_disk d (located nm root s0)))
    as [md [s' [L [Hd Hs]]]].
  rewrite (bind_ok _ _ _ _ _ L). step.
  match goal with |- context [bind collect_encodings ?k ?st] =>
    rewrite (bind_ok _ k st _ _ (collect_encodings_scan st));
    set (enc := scan st);
    assert (Sc : forall st', name (self st') = nm ->
                  folder (self st') = join root nm -> disk st' = disk s' ->
                  scan st' = enc)
  end.
  { intros st' N F D. apply scan_ext.
    - rewrite N. cbn. now rewrite Hs.
    - rewrite F. cbn. now rewrite Hs.
    - intros e _. unfold isfile_in. now rewrite D. }
  clearbody enc.
  step. cbn [self with_self encodings set_encodings].
  unfold Dict.contains, getitem.
  destruct (Dict.get fmt enc) as [path|] eqn:G; cbn [negb].
  2:{ step. rewrite bind_raise_now. discriminate. }
  step. cbn [self with_self encodings set_encodings set_authority_format].
  rewrite G. step.
  cbn [disk with_disk located] in Hd. cbn [self with_disk located with_self] in Hs.
  erewrite bind_ok
    by (apply collect_performances_dir; cbn; rewrite Hs, Hd; exact Dp).
  step.
  erewrite bind_ok
    by (apply collect_scores_dir; cbn; rewrite Hs, Hd; exact Ds).
  step. intros [= <-]. cbn. rewrite Hs, Hd. cbn.
  split; [repeat split |].
  split; [split; [reflexivity |]; split; [reflexivity |]; split |].
  - symmetry. apply Sc; cbn; rewrite ?Hs; reflexivity.
  - rewrite (Sc _); cbn; rewrite ?Hs; try reflexivity. exact G.
  - split; [| exact Hfile]. repeat split; assumption.
Qed.

(** X2. A piece that the constructor returns has the layout of its
    arguments, the requested authority format with
    [authority = encodings[authority_format]], the encodings of a scan
    of the disk it leaves, both of its directories on that disk, and
    the two indexes of their listings; the constructor has created or
    removed no regular file. *)
Theorem X2_constructed_piece (nm root fmt : string) (s0 s : state) :
  __init__ nm root fmt s0 = (Ok tt, s) ->
  (name (self s) = nm /\
   folder (self s) = join root nm /\
   collection_root (self s) = root /\
   performance_dir (self s) = join (join root nm) "performances" /\
   score_dir (self s) = join (join root nm) "scores") /\
  (authority_format (self s) = fmt /\
   in_list fmt AVAILABLE_AUTHORITIES = true /\
   encodings (self s) = scan s /\
   Dict.get fmt (scan s) = Some (authority (self s))) /\
  (is_dir (lookup (resolve (performance_dir (self s))) (disk s)) = true /\
   is_dir (lookup (resolve (score_dir (self s))) (disk s)) = true /\
   performances (self s) = index (disk s) (performance_dir (self s)) /\
   scores (self s) = index (disk s) (score_dir (self s))) /\
  (forall q, is_file (lookup q (disk s)) = is_file (lookup q (disk s0))).
Proof. exact (init_post nm root fmt s0 s). Qed.

Lemma X2_constructed_piece_witness :
  name (self bach_state) = bach /\
  Dict.get "ly" (scan bach_state) = Some (authority (self bach_state)) /\
  is_dir (lookup (resolve (score_dir (self bach_state))) (disk bach_state))
    = true.
Proof.
  destruct (X2_constructed_piece bach "/col" "ly" (boot col_disk) bach_state
              eq_refl) as [[N _] [[_ [_ [_ A]]] [[_ [S _]] _]]].
  split; [exact N |]. split; [exact A | exact S].
Defined.

(** ** Refreshing *)

Lemma scan_refreshed (s : state) : scan (refreshed s) = scan s.
Proof. apply scan_ext; reflexivity. Qed.

(** A piece whose attributes are those of a scan is not changed by a
    refresh. *)
Lemma refreshed_in_sync (s : state) :
  encodings (self s) = scan s ->
  Dict.get (authority_format (self s)) (scan s) = Some (authority (self s)) ->
  performances (self s) = index (disk s) (performance_dir (self s)) ->
  scores (self s) = index (disk s) (score_dir (self s)) ->
  refreshed s = s.
Proof.
  intros E A P S. unfold refreshed, with_self. cbv beta.
  rewrite A, <- E, <- P, <- S.
  destruct s as [p d l o n]. destruct p. reflexivity.
Qed.

Lemma ready_authority_path (s : state) :
  ready s ->
  exists path, Dict.get (authority_format (self s)) (scan s) = Some path.
Proof. intros R. apply contains_get. apply (ready_authority _ R). Qed.

Lemma refreshed_refreshed (s : state) :
  ready s -> refreshed (refreshed s) = refreshed s.
Proof.
  intros R. destruct (ready_authority_path s R) as [path G].
  apply refreshed_in_sync; rewrite ?scan_refreshed;
    unfold refreshed, with_self;
    cbn [self disk encodings authority_format authority performances scores
         performance_dir score_dir set_scores set_performances set_authority
         set_authority_format set_encodings];
    rewrite ?G; reflexivity.
Qed.

(** X5. On a Piece whose two directories and whose authority file are
    on the disk, [update()] returns, writes nothing to the disk and logs
    nothing; it leaves [encodings] equal to the scan, the authority pair
    consistent with it and both indexes equal to the listings; and an
    [update()] immediately after it changes nothing. *)
Theorem X5_update_idempotent (s : state) :
  ready s ->
  exists s1,
    update s = (Ok tt, s1) /\
    update s1 = (Ok tt, s1) /\
    disk s1 = disk s /\ log s1 = log s /\
    encodings (self s1) = scan s /\
    Dict.get (authority_format (self s1)) (encodings (self s1))
      = Some (authority (self s1)) /\
    performances (self s1) = index (disk s) (performance_dir (self s)) /\
    scores (self s1) = index (disk s) (score_dir (self s)).
Proof.
  intros R. exists (refreshed s).
  destruct (ready_authority_path s R) as [path G].
  split; [apply (update_ready s R) |].
  split.
  - rewrite (update_ready _ (ready_refreshed s R)).
    now rewrite (refreshed_refreshed s R).
  - unfold refreshed, with_self.
    cbn [self disk log encodings authority_format authority performances
         scores set_scores set_performances set_authority
         set_authority_format set_encodings].
    rewrite G. repeat split; assumption.
Qed.

Lemma X5_update_idempotent_witness :
  exists s1,
    update two_takes_state = (Ok tt, s1) /\ update s1 = (Ok tt, s1) /\
    disk s1 = col_disk_two_takes.
Proof.
  destruct (X5_update_idempotent two_takes_state) as [s1 [A [B [D _]]]].
  - split; [split |..]; reflexivity.
  - exists s1. split; [exact A |]. split; [exact B |]. rewrite D. reflexivity.
Defined.

(** X6. Right after construction the index is in sync: on a constructed
    Piece with a plain name, [update()] returns and leaves the whole
    state as the constructor left it. *)
Theorem X6_update_after_construction (nm root fmt : string) (s0 s : state) :
  plain nm = true ->
  __init__ nm root fmt s0 = (Ok tt, s) ->
  update s = (Ok tt, s).
Proof.
  intros Pn H.
  destruct (init_post nm root fmt s0 s H)
    as [[N [F [C [P S]]]] [[A [I [E G]]] [[Dp [Ds [Ip Is]]] _]]].
  assert (R : ready s).
  { split; [split |..].
    - now rewrite N.
    - now rewrite P, F.
    - now rewrite S, F.
    - now rewrite A.
    - exact Dp.
    - exact Ds.
    - apply contains_get. rewrite A. eexists. exact G. }
  rewrite (update_ready s R). f_equal.
  apply refreshed_in_sync; try assumption. now rewrite A.
Qed.

Lemma X6_update_after_construction_witness :
  update bach_state = (Ok tt, bach_state).
Proof.
  apply (X6_update_after_construction bach "/col" "ly" (boot col_disk));
    reflexivity.
Defined.

(** ** Removing a performance *)

Lemma not_listed (d : node) (dir nm : string) (es : Dict.t node) :
  lookup (resolve dir) d = Some (Dir es) ->
  in_list nm (listing d dir) = false -> Dict.get nm es = None.
Proof.
  intros HD H. rewrite (listing_dir _ _ _ HD), in_list_keys in H.
  unfold Dict.contains in H. now destruct (Dict.get nm es).
Qed.

(** X7. Removing a performance that is not in the performances
    directory is no error: on a ready Piece [remove_performance]
    returns, logs one warning, leaves the disk as it is and leaves
    [performances] equal to the index of the directory, in which the
    name does not occur. *)
Theorem X7_remove_missing_performance (s : state) (nm : string) :
  ready s ->
  in_list nm (listing (disk s) (performance_dir (self s))) = false ->
  exists s',
    remove_performance nm s = (Ok tt, s') /\
    disk s' = disk s /\
    log s' = (log s ++ [RemoveMissingPerformance (name (self s)) nm])%list /\
    performances (self s') = index (disk s) (performance_dir (self s)) /\
    Dict.get nm (performances (self s')) = None.
Proof.
  intros R H.
  destruct (is_dir_inv _ (ready_performance_dir _ R)) as [es HD].
  rewrite (remove_performance_unlisted s nm es R HD (not_listed _ _ _ _ HD H)).
  eexists. split; [reflexivity |].
  cbn [snd logging.warn modify disk log self refreshed with_self performances
       set_scores set_performances].
  repeat split. rewrite index_get, H. reflexivity.
Qed.

Lemma X7_remove_missing_performance_witness :
  exists s',
    remove_performance "take9" two_takes_state = (Ok tt, s') /\
    disk s' = disk two_takes_state /\
    Dict.keys (performances (self s')) = ["take1"; "take2"].
Proof.
  destruct (X7_remove_missing_performance two_takes_state "take9")
    as [s' [E [D [_ [P _]]]]].
  - split; [split |..]; reflexivity.
  - reflexivity.
  - exists s'. split; [exact E |]. split; [exact D |]. rewrite P. reflexivity.
Defined.



(** ** Loading performances and scores *)





(** X11. The score loaders are not implemented.  [load_score] calls
    [update()] first and never returns: when [update()] raises,
    [load_score] raises the same exception in the state that [update()]
    left, so on a Piece whose authority file is gone it raises the
    missing-authority error with [encodings] already replaced; when
    [update()] returns, [load_score] raises [NotImplementedError] in
    the state that [update()] left, which on a ready Piece is the
    refreshed one.  [load_all_scores] raises [NotImplementedError] at
    once and changes nothing. *)
Theorem X11_score_loaders_not_implemented (score_name : string) (s : state) :
  (forall e s',
     update s = (Raise e, s') -> load_score score_name s = (Raise e, s')) /\
  (forall s',
     update s = (Ok tt, s') ->
     load_score score_name s = (Raise NotImplementedError, s')) /\
  (ready s ->
   load_score score_name s = (Raise NotImplementedError, refreshed s)) /\
  (in_list (authority_format (self s)) AVAILABLE_AUTHORITIES = true ->
   Dict.get (authority_format (self s)) (scan s) = None ->
   load_score score_name s =
     (Raise (SheetManagerDBError
               (NoAuthorityEncoding (name (self s)) (collection_root (self s))
                  (authority_format (self s)) (Dict.values (scan s)))),
      with_self (set_encodings (scan s)) s)) /\
  load_all_scores score_name s = (Raise NotImplementedError, s).
Proof.
  unfold load_score.
  split; [| split; [| split; [| split; [| reflexivity]]]].
  - intros e s' H. apply (bind_raise _ _ _ _ _ H).
  - intros s' H. now rewrite (bind_ok _ _ _ _ _ H).
  - intros R. now rewrite (bind_ok _ _ _ _ _ (update_ready s R)).
  - intros I G. apply (bind_raise _ _ _ _ _ (update_authority_missing s I G)).
Qed.

Lemma X11_score_loaders_witness :
  load_score "urtext" two_takes_state
    = (Raise NotImplementedError, two_takes_state)
  /\
  fst (load_score "urtext" (with_disk col_disk_ly_removed bach_state))
    = Raise (SheetManagerDBError
               (NoAuthorityEncoding bach "/col" "ly"
                  ["/col/bach_bwv846/bach_bwv846.mid"])).
Proof.
  split.
  - destruct (X11_score_loaders_not_implemented "urtext" two_takes_state)
      as [_ [_ [H _]]].
    rewrite H; [reflexivity |]. split; [split |..]; reflexivity.
  - destruct (X11_score_loaders_not_implemented "urtext"
                (with_disk col_disk_ly_removed bach_state))
      as [_ [_ [_ [H _]]]].
    rewrite H; reflexivity.
Defined.

(** ** The two indexes *)

Lemma dict_comprehension_NoDup {V} (l : list string) (f : string -> V) :
  NoDup (Dict.keys (dict_comprehension l f)).
Proof.
  unfold dict_comprehension.
  assert (G : forall acc : Dict.t V, NoDup (Dict.keys acc) ->
            NoDup (Dict.keys
                     (fold_left (fun d k => Dict.set k (f k) d) l acc))).
  { induction l as [|x l IH]; intros acc H; cbn [fold_left]; [exact H |].
    apply IH. rewrite keys_set. destruct (Dict.contains x acc) eqn:C;
      [exact H |].
    apply NoDup_app; [exact H | repeat constructor; intros [] |].
    intros k Hk [<-|[]]. apply In_keys_get in Hk. destruct Hk as [v Hv].
    unfold Dict.contains in C. now rewrite Hv in C. }
  apply G. constructor.
Qed.

(** X12. [collect_performances] and [collect_scores] only read: the
    state is as before whatever they answer.  When the directory exists
    the answer is a dict without repeated keys that binds every name of
    the listing, whatever it names, to the directory path joined with
    that name, and binds nothing else; they raise
    [NotADirectoryError] when the path is a regular file and
    [FileNotFoundError] when it is missing. *)
Theorem X12_collect_is_a_listing (s : state) :
  (snd (collect_performances s) = s /\
   match lookup (resolve (performance_dir (self s))) (disk s) with
   | Some (Dir es) =>
       exists perfs,
         fst (collect_performances s) = Ok perfs /\
         NoDup (Dict.keys perfs) /\
         forall n,
           Dict.get n perfs =
             if in_list n (Dict.keys es)
             then Some (join (performance_dir (self s)) n) else None
   | Some (File _) =>
       fst (collect_performances s)
       = Raise (OSError NotADirectoryError (performance_dir (self s)))
   | None =>
       fst (collect_performances s)
       = Raise (OSError FileNotFoundError (performance_dir (self s)))
   end)
  /\
  (snd (collect_scores s) = s /\
   match lookup (resolve (score_dir (self s))) (disk s) with
   | Some (Dir es) =>
       exists scs,
         fst (collect_scores s) = Ok scs /\
         NoDup (Dict.keys scs) /\
         forall n,
           Dict.get n scs =
             if in_list n (Dict.keys es)
             then Some (join (score_dir (self s)) n) else None
   | Some (File _) =>
       fst (collect_scores s)
       = Raise (OSError NotADirectoryError (score_dir (self s)))
   | None =>
       fst (collect_scores s)
       = Raise (OSError FileNotFoundError (score_dir (self s)))
   end).
Proof.
  split.
  - unfold collect_performances. step. unfold bind, os.listdir, ret.
    destruct (lookup (resolve (performance_dir (self s))) (disk s))
      as [[x|es]|]; cbn [fst snd]; try (split; reflexivity).
    split; [reflexivity |]. eexists. split; [reflexivity |].
    split; [apply dict_comprehension_NoDup |].
    intros n. apply dict_comprehension_get.
  - unfold collect_scores. step. unfold bind, os.listdir, ret.
    destruct (lookup (resolve (score_dir (self s))) (disk s))
      as [[x|es]|]; cbn [fst snd]; try (split; reflexivity).
    split; [reflexivity |]. eexists. split; [reflexivity |].
    split; [apply dict_comprehension_NoDup |].
    intros n. apply dict_comprehension_get.
Qed.

(** ** Selecting the authority twice *)

Lemma _set_authority_ok_inv (fmt : string) (s : state) :
  fst (_set_authority fmt s) = Ok tt ->
  in_list fmt AVAILABLE_AUTHORITIES = true /\
  exists path, Dict.get fmt (encodings (self s)) = Some path.
Proof.
  intros H. destruct (in_list fmt AVAILABLE_AUTHORITIES) eqn:I.
  - split; [reflexivity |].
    destruct (Dict.get fmt (encodings (self s))) as [path|] eqn:G;
      [now exists path |].
    rewrite (_set_authority_missing fmt s I G) in H. discriminate.
  - rewrite (_set_authority_unsupported fmt s I) in H. discriminate.
Qed.

(** X13. Selecting the authority is idempotent, and the last selection
    wins: a second [_set_authority] with the same format gives the same
    outcome and the same state as the first, and a [_set_authority] that
    succeeds leaves the same state whether or not another
    [_set_authority] ran before it. *)
Theorem X13_set_authority_last_wins (f g : string) (s : state) :
  _set_authority f (snd (_set_authority f s)) = _set_authority f s /\
  (fst (_set_authority g s) = Ok tt ->
   _set_authority g (snd (_set_authority f s)) = _set_authority g s).
Proof.
  assert (cases : snd (_set_authority f s) = s \/
                  exists path,
                    snd (_set_authority f s) =
                    with_self (fun p => set_authority path
                                          (set_authority_format f p)) s).
  { destruct (in_list f AVAILABLE_AUTHORITIES) eqn:I.
    - destruct (Dict.get f (encodings (self s))) as [path|] eqn:G.
      + right. exists path. now rewrite (_set_authority_found f path s I G).
      + left. now rewrite (_set_authority_missing f s I G).
    - left. now rewrite (_set_authority_unsupported f s I). }
  split.
  - destruct (in_list f AVAILABLE_AUTHORITIES) eqn:I.
    + destruct (Dict.get f (encodings (self s))) as [path|] eqn:G.
      * rewrite (_set_authority_found f path s I G). cbn [snd].
        rewrite (_set_authority_found f path
                   (with_self (fun p => set_authority path
                                          (set_authority_format f p)) s)
                   I G).
        reflexivity.
      * rewrite (_set_authority_missing f s I G). cbn [snd].
        apply (_set_authority_missing f s I G).
    + rewrite (_set_authority_unsupported f s I). cbn [snd].
      apply (_set_authority_unsupported f s I).
  - intros H. destruct (_set_authority_ok_inv g s H) as [I [path G]].
    destruct cases as [-> | [p ->]]; [reflexivity |].
    rewrite (_set_authority_found g path s I G).
    rewrite (_set_authority_found g path
               (with_self (fun q => set_authority p
                                      (set_authority_format f q)) s)
               I G).
    reflexivity.
Qed.

Lemma X13_set_authority_last_wins_witness :
  _set_authority "midi" (snd (_set_authority "ly" bach_state))
    = _set_authority "midi" bach_state.
Proof.
  destruct (X13_set_authority_last_wins "ly" "midi" bach_state) as [_ H].
  apply H. reflexivity.
Defined.
